(** * add_bit.py: a shallow embedding and its verified properties

    The program reads freeform text, asks a language-model API to structure
    it into a "bit", lets the user revise the record in an editor, and
    prepends it to [data/bits.json].

    Strings are Rocq strings; a character is a code point in 0..255
    (Latin-1), on which [str.lower], [str.strip] and the two regular
    expressions of [slugify] are modelled exactly. Outside the model are
    the code points above 255, where [str.lower] can change the number of
    characters, and a write of the store that fails in the middle. The
    limits of the interpreter that the program can meet are part of it:
    the exceptions of [json.loads] other than [JSONDecodeError], the
    recursion limit under the nested calls of [open_in_editor], and the
    ways in which the editor cannot be started. *)

From Stdlib Require Import ZArith Ascii DecimalPos DecimalZ DecimalString
  SpecFloat.
From stdpp Require Import base gmap strings list fin_maps.

Local Open Scope Z_scope.

(** ** Characters and strings *)

Module Str.

Definition code (c : ascii) : N := N_of_ascii c.

Definition between (lo hi : N) (c : ascii) : bool :=
  ((lo <=? code c) && (code c <=? hi))%N.

(** [a-z], [0-9] and the class [a-z0-9] of the slug pattern. *)
Definition is_lower_az (c : ascii) : bool := between 97 122 c.
Definition is_digit (c : ascii) : bool := between 48 57 c.
Definition is_slug_char (c : ascii) : bool := is_lower_az c || is_digit c.

Definition hyphen : ascii := "-"%char.

(** [str.lower] on one code point below 256: A-Z, and the Latin-1
    capitals U+00C0..U+00DE except the multiplication sign U+00D7. *)
Definition chr_lower (c : ascii) : ascii :=
  if between 65 90 c || (between 192 222 c && negb (code c =? 215)%N)
  then ascii_of_N (code c + 32)
  else c.

(** [str.isspace] below 256: TAB..CR, FS..US, space, NEL and NBSP. *)
Definition is_space (c : ascii) : bool :=
  between 9 13 c || between 28 32 c || (code c =? 133)%N || (code c =? 160)%N.

Definition chars (s : string) : list ascii := String.list_ascii_of_string s.
Definition of_chars (l : list ascii) : string := String.string_of_list_ascii l.

(** [s.lower()], character by character: below 256 the lowered text is as
    long as the text. *)
Definition lower (s : string) : string := of_chars (map chr_lower (chars s)).

Fixpoint lstrip_chars (l : list ascii) : list ascii :=
  match l with
  | c :: r => if is_space c then lstrip_chars r else l
  | [] => []
  end.

(** [s.strip()] *)
Definition strip (s : string) : string :=
  of_chars (rev (lstrip_chars (rev (lstrip_chars (chars s))))).

(** [str(n)] for a Python int. *)
Definition of_Z (n : Z) : string := NilZero.string_of_int (Z.to_int n).

(** Two-digit zero-padded decimal, as [%m] and [%d] print. *)
Definition pad2 (n : Z) : string :=
  if ((0 <=? n) && (n <? 10))%Z then "0" +:+ of_Z n else of_Z n.

Definition nl : string := String "010"%char EmptyString.

(** [sep.join(lines)] with the newline as separator *)
Fixpoint join_lines (lines : list string) : string :=
  match lines with
  | [] => EmptyString
  | [l] => l
  | l :: r => l +:+ nl +:+ join_lines r
  end.

End Str.

(** ** slugify *)

(** [re.sub(r"[^a-z0-9]+", "-", text)]: every maximal run of characters
    outside [a-z0-9] becomes one hyphen. [in_run] tells that the hyphen of
    the current run is already out. *)
Fixpoint sub_non_alnum_runs (in_run : bool) (l : list ascii) : list ascii :=
  match l with
  | [] => []
  | c :: r =>
      if Str.is_slug_char c then c :: sub_non_alnum_runs false r
      else if in_run then sub_non_alnum_runs true r
      else Str.hyphen :: sub_non_alnum_runs true r
  end.

(** The [-$] alternative: a hyphen in last position is removed. *)
Fixpoint drop_final_hyphen (l : list ascii) : list ascii :=
  match l with
  | [] => []
  | [c] => if Ascii.eqb c Str.hyphen then [] else [c]
  | c :: r => c :: drop_final_hyphen r
  end.

(** [re.sub] of the pattern [^-|-$] by the empty string, on a text without
    newline: the scan removes a hyphen in first position, then a hyphen in
    last position of what remains. *)
Definition sub_edge_hyphens (l : list ascii) : list ascii :=
  match l with
  | c :: r => if Ascii.eqb c Str.hyphen then drop_final_hyphen r
              else drop_final_hyphen l
  | [] => []
  end.

Definition slugify (text : string) : string :=
  let text := Str.lower text in
  let text := sub_non_alnum_runs false (Str.chars text) in
  let text := sub_edge_hyphens text in
  Str.of_chars (take 50 text).

(** ** JSON values

    What [json.loads] returns: [None], [bool], [int], [float], [str],
    [list] and [dict]. A dict keeps its keys in insertion order, each key
    once. *)

#[warnings="-register-all"] Inductive json : Type :=
  | JNull
  | JBool (b : bool)
  | JInt (n : Z)
  | JFloat (f : spec_float)
  | JStr (s : string)
  | JList (l : list json)
  | JDict (d : list (string * json)).

(** Python truth value: [not v] is [negb (truthy v)]. *)
Definition truthy (v : json) : bool :=
  match v with
  | JNull => false
  | JBool b => b
  | JInt n => negb (n =? 0)
  | JFloat (S754_zero _) => false
  | JFloat _ => true
  | JStr s => negb (String.eqb s EmptyString)
  | JList l => match l with [] => false | _ => true end
  | JDict d => match d with [] => false | _ => true end
  end.

Module Dict.

(** [d.get(k)] *)
Fixpoint get (k : string) (d : list (string * json)) : option json :=
  match d with
  | [] => None
  | (k', v) :: r => if String.eqb k' k then Some v else get k r
  end.

(** [k in d] *)
Definition contains (k : string) (d : list (string * json)) : bool :=
  match get k d with Some _ => true | None => false end.

(** [d[k] = v]: an existing key keeps its place, a new key goes last. *)
Fixpoint set (k : string) (v : json) (d : list (string * json))
  : list (string * json) :=
  match d with
  | [] => [(k, v)]
  | (k', v') :: r =>
      if String.eqb k' k then (k, v) :: r else (k', v') :: set k v r
  end.

(** [del d[k]] for a key that is present. *)
Definition del (k : string) (d : list (string * json))
  : list (string * json) :=
  List.filter (fun kv => negb (String.eqb (fst kv) k)) d.

End Dict.

(** ** Exceptions and results *)

(** The argument of [SystemExit]: an integer status, or any other object,
    which the interpreter prints to stderr before exiting with status 1. *)
Inductive exit_arg : Type :=
  | ExitCode (n : Z)
  | ExitMessage (s : string).

Inductive exn : Type :=
  | SystemExit (arg : exit_arg)
  | EOFError
  | KeyError (key : string)
  | TypeError
  | AttributeError
  | ValueError (msg : string)
  | JSONDecodeError (msg : string)
  | FileNotFoundError
  | CalledProcessError (status : Z)
  | APIError (msg : string)
  | RecursionError
  | PermissionError
  | OSError.

(** [isinstance(e, Exception)]: [SystemExit] derives from [BaseException]
    only. *)
Definition is_Exception (e : exn) : bool :=
  match e with SystemExit _ => false | _ => true end.

(** [isinstance(e, json.JSONDecodeError)] *)
Definition is_JSONDecodeError (e : exn) : bool :=
  match e with JSONDecodeError _ => true | _ => false end.

(** The exceptions of [json.loads] on a [str]: [JSONDecodeError] for a text
    that is no JSON; for a JSON text, [ValueError] when an integer literal
    has more digits than the interpreter converts (4300 by default) and
    [RecursionError] when the nesting is too deep. *)
Definition is_loads_error (e : exn) : bool :=
  match e with
  | JSONDecodeError _ | ValueError _ | RecursionError => true
  | _ => false
  end.

(** [str(e)] *)
Definition exn_message (e : exn) : string :=
  match e with
  | SystemExit (ExitCode n) => Str.of_Z n
  | SystemExit (ExitMessage s) => s
  | KeyError k => "'" +:+ k +:+ "'"
  | ValueError m | JSONDecodeError m | APIError m => m
  | CalledProcessError st =>
      "Command returned non-zero exit status " +:+ Str.of_Z st +:+ "."
  | _ => EmptyString
  end.

Inductive res (A : Type) : Type :=
  | Ret (a : A)
  | Raise (e : exn).
Arguments Ret {A} a.
Arguments Raise {A} e.

(** The status the interpreter exits with. *)
Definition exit_status {A} (r : res A) : Z :=
  match r with
  | Ret _ => 0
  | Raise (SystemExit (ExitCode n)) => n
  | Raise _ => 1
  end.

(** ** The outside world *)

(** The [json] module and [repr], as the program uses them. *)
Class JsonCodec : Type := {
  (** [json.dumps(v, indent=2, ensure_ascii=...)] *)
  json_dumps : bool -> json -> string;
  (** [json.loads(s)]: the value it returns or the exception it raises *)
  json_loads : string -> res json;
  (** [str(v)] of a value that is not a [str] *)
  json_repr : json -> string;
  (** [json.loads] raises nothing but the exceptions of [is_loads_error] *)
  json_loads_raises :
    forall s e, json_loads s = Raise e -> is_loads_error e = true
}.

(** [str(e)] of the exception that [json.loads(s)] raises. *)
Definition json_error {codec : JsonCodec} (s : string) : string :=
  match json_loads s with
  | Raise e => exn_message e
  | Ret _ => EmptyString
  end.

(** [json.loads(s)] raises [JSONDecodeError]: the text is no JSON. *)
Definition not_json {codec : JsonCodec} (s : string) : Prop :=
  json_loads s = Raise (JSONDecodeError (json_error s)).

(** Files the program names: the temporary files [bit_*.json], told apart
    by the unique part of the name, and [data/bits.json]. *)
Inductive path : Type :=
  | TempFile (n : nat)
  | BitsJson.

#[global] Instance path_eq_dec : EqDecision path.
Proof. solve_decision. Defined.

#[global] Instance path_countable : Countable path :=
  inj_countable'
    (fun p => match p with TempFile n => Some n | BitsJson => None end)
    (fun o => match o with Some n => TempFile n | None => BitsJson end)
    (fun p => match p with TempFile _ => eq_refl | BitsJson => eq_refl end).

(** One content block of the API's reply. *)
Inductive block : Type :=
  | TextBlock (text : string)
  | ToolUseBlock (name : string) (input : json).

Inductive api_reply : Type :=
  | ApiFailure (msg : string)
  | ApiMessage (content : list block).

(** The request of [client.messages.create]. *)
Record api_request : Type := {
  req_model : string;
  req_max_tokens : Z;
  req_tool : string;
  req_required : list string;
  req_content : string
}.

(** Why [subprocess.run] cannot start a command: there is no such program,
    it may not be executed (an empty command, a directory, a file without
    the execute permission), or the system cannot execute it (an exec
    format error). *)
Inductive start_failure : Type :=
  | NotFound
  | NotPermitted
  | NotExecutable.

(** The exception of [subprocess.run] for each. *)
Definition start_error (why : start_failure) : exn :=
  match why with
  | NotFound => FileNotFoundError
  | NotPermitted => PermissionError
  | NotExecutable => OSError
  end.

(** One run of the editor on a file: the command cannot be started, or it
    exits with a status and leaves the file with some content ([None]: the
    file is gone). *)
Inductive session : Type :=
  | NotStarted (why : start_failure)
  | Exited (status : Z) (after : option string).

(** [time.localtime()], the fields [%Y-%m-%d] prints. *)
Record date : Type := { tm_year : Z; tm_mon : Z; tm_mday : Z }.

(** What the program cannot change: the environment variables, the API, the
    editor (a function of the command, of the number of earlier launches and
    of the content of the file it is given, the only file it changes), the
    clock ([int(time.time() * 1000)] as an integer, and the local date), the
    exit status of the rebuild script, which changes none of the files
    above, and the number of nested calls of [open_in_editor] that the
    recursion limit of the interpreter leaves room for below the first one
    (about 990 under the default limit of 1000). *)
Record Env : Type := {
  environ : gmap string string;
  api : api_request -> api_reply;
  editor : string -> nat -> string -> session;
  now_ms : Z;
  today : date;
  rebuild_status : Z;
  retry_limit : nat
}.

Inductive event : Type :=
  | EvPrint (s : string)
  | EvInput (prompt : string) (line : option string)
  | EvRequest (r : api_request)
  | EvCreate (p : path) (content : string)
  | EvLaunch (command : string) (p : path)
  | EvUnlink (p : path)
  | EvWrite (p : path) (content : string)
  | EvRebuild.

(** What the program changes: the lines still to be read from stdin, the
    files, the number of editor launches so far and the history of
    effects. *)
Record World : Type := {
  stdin : list string;
  fs : gmap path string;
  launches : nat;
  trace : list event
}.

Definition set_stdin (l : list string) (w : World) : World :=
  {| stdin := l; fs := fs w; launches := launches w; trace := trace w |}.
Definition set_fs (m : gmap path string) (w : World) : World :=
  {| stdin := stdin w; fs := m; launches := launches w; trace := trace w |}.
Definition set_launches (n : nat) (w : World) : World :=
  {| stdin := stdin w; fs := fs w; launches := n; trace := trace w |}.
Definition log (evs : list event) (w : World) : World :=
  {| stdin := stdin w; fs := fs w; launches := launches w;
     trace := trace w ++ evs |}.

(** ** The monad of effects: state and exceptions *)

Definition M (A : Type) : Type := World -> res A * World.

Definition ret {A} (a : A) : M A := fun w => (Ret a, w).
Definition raise {A} (e : exn) : M A := fun w => (Raise e, w).
Definition bind {A B} (m : M A) (k : A -> M B) : M B :=
  fun w => match m w with
           | (Ret a, w1) => k a w1
           | (Raise e, w1) => (Raise e, w1)
           end.
Definition lift {A} (r : res A) : M A := fun w => (r, w).

Declare Scope py_scope.
Delimit Scope py_scope with py.
Notation "x <- m ;; k" := (bind m (fun x => k))
  (at level 100, m at next level, right associativity) : py_scope.
Notation "m ;; k" := (bind m (fun _ => k))
  (at level 100, right associativity) : py_scope.
Local Open Scope py_scope.

(** [try: body finally: final] *)
Definition try_finally {A} (body : M A) (final : M unit) : M A :=
  fun w => match body w with
           | (r, w1) => match final w1 with
                        | (Ret _, w2) => (r, w2)
                        | (Raise e, w2) => (Raise e, w2)
                        end
           end.

(** [try: body except <caught> as e: handler(e)] *)
Definition try_except {A} (body : M A) (caught : exn -> bool)
    (handler : exn -> M A) : M A :=
  fun w => match body w with
           | (Raise e, w1) => if caught e then handler e w1 else (Raise e, w1)
           | ok => ok
           end.

(** [if c: body] *)
Definition when (c : bool) (body : M unit) : M unit :=
  if c then body else ret tt.

Definition emit (e : event) : M unit := fun w => (Ret tt, log [e] w).

Definition print (s : string) : M unit := emit (EvPrint s).

Definition sys_exit {A} (n : Z) : M A := raise (SystemExit (ExitCode n)).

(** [input(prompt)]: the next line of stdin, [EOFError] at its end. *)
Definition input (prompt : string) : M string :=
  fun w => match stdin w with
           | line :: rest =>
               (Ret line, log [EvInput prompt (Some line)] (set_stdin rest w))
           | [] => (Raise EOFError, log [EvInput prompt None] w)
           end.

(** ** Files and processes *)

(** An index above every temporary file present. *)
Definition temp_bound (m : gmap path string) : nat :=
  foldr (fun kv acc => match fst kv with
                       | TempFile n => Nat.max (S n) acc
                       | BitsJson => acc
                       end) 0%nat (map_to_list m).

(** [tempfile.NamedTemporaryFile(mode="w", suffix=".json", delete=False,
    prefix="bit_")], written and closed: a file with a name not in use. *)
Definition named_temporary_file (content : string) : M path :=
  fun w => let p := TempFile (temp_bound (fs w)) in
           (Ret p, log [EvCreate p content] (set_fs (<[p := content]> (fs w)) w)).

(** [open(p).read()] *)
Definition read_file (p : path) : M string :=
  fun w => match fs w !! p with
           | Some c => (Ret c, w)
           | None => (Raise FileNotFoundError, w)
           end.

(** [open(p, "w")] followed by the writes and the close, taken as one step
    that completes: a write that fails in the middle, after the file has
    been truncated, is outside the model. *)
Definition write_file (p : path) (content : string) : M unit :=
  fun w => (Ret tt, log [EvWrite p content] (set_fs (<[p := content]> (fs w)) w)).

(** [os.unlink(p)] *)
Definition unlink (p : path) : M unit :=
  fun w => match fs w !! p with
           | Some _ => (Ret tt, log [EvUnlink p] (set_fs (delete p (fs w)) w))
           | None => (Raise FileNotFoundError, w)
           end.


(** ** Python operations on decoded JSON values *)

(** [v[k]] with a string key: only a dict can be subscripted by a [str]. *)
Definition getitem (v : json) (k : string) : res json :=
  match v with
  | JDict d => match Dict.get k d with
               | Some x => Ret x
               | None => Raise (KeyError k)
               end
  | _ => Raise TypeError
  end.

(** [v[k] = x] with a string key. *)
Definition setitem (v : json) (k : string) (x : json) : res json :=
  match v with
  | JDict d => Ret (JDict (Dict.set k x d))
  | _ => Raise TypeError
  end.

(** [if key in bit and not bit[key]: del bit[key]], on the dict that the
    item assignments before it have left. *)
Definition strip_if_falsy (bit : json) (key : string) : res json :=
  match bit with
  | JDict d => match Dict.get key d with
               | Some v => if truthy v then Ret bit
                           else Ret (JDict (Dict.del key d))
               | None => Ret bit
               end
  | _ => Raise TypeError
  end.

(** [for key in keys: ...] over [strip_if_falsy]. *)
Fixpoint strip_each (keys : list string) (bit : json) : res json :=
  match keys with
  | [] => Ret bit
  | key :: rest => match strip_if_falsy bit key with
                   | Ret bit' => strip_each rest bit'
                   | Raise e => Raise e
                   end
  end.

(** [slugify(v)]: [text.lower()] exists on a [str] only. *)
Definition slugify_value (v : json) : res string :=
  match v with
  | JStr s => Ret (slugify s)
  | _ => Raise AttributeError
  end.

(** [bits.insert(0, bit)]: [insert] exists on a [list] only. *)
Definition insert_front (bits bit : json) : res json :=
  match bits with
  | JList l => Ret (JList (bit :: l))
  | _ => Raise AttributeError
  end.

(** [time.strftime("%Y-%m-%d")]: the year in decimal, month and day on two
    digits. *)
Definition strftime_ymd (d : date) : string :=
  Str.of_Z (tm_year d) +:+ "-" +:+ Str.pad2 (tm_mon d) +:+ "-"
  +:+ Str.pad2 (tm_mday d).

(** The yes/no prompts: [input(...).strip().lower()] compared with ["n"]. *)
Definition answer_is_n (line : string) : bool :=
  String.eqb (Str.lower (Str.strip line)) "n".

Definition input_prompt : string := "> ".
Definition reedit_prompt : string := "Re-edit? [Y/n] ".
Definition confirm_prompt : string := Str.nl +:+ "Add this bit? [Y/n] ".

Definition request_header : string :=
"Structure the following freeform text into a bit (a short link-blog entry).
Extract or generate:
- A concise title
- The URL if one is present
- Any commentary/thoughts as content
- Relevant tags
- The source (via) if mentioned

Text:
".

Definition bit_request (text : string) : api_request :=
  {| req_model := "claude-sonnet-4-20250514";
     req_max_tokens := 1024;
     req_tool := "create_bit";
     req_required := ["title"];
     req_content := request_header +:+ text |}.

(** [for block in message.content: if block.type == "tool_use": return
    block.input] *)
Fixpoint first_tool_use (content : list block) : option json :=
  match content with
  | [] => None
  | ToolUseBlock _ input :: _ => Some input
  | TextBlock _ :: rest => first_tool_use rest
  end.

(** The [while True] loop of [get_user_input] on the lines still to come:
    the lines gathered, the lines left unread and the [input] calls made. *)
Fixpoint collect_lines (pending lines : list string)
  : list string * list string * list event :=
  match pending with
  | [] => (lines, [], [EvInput input_prompt None])
  | line :: rest =>
      if String.eqb line EmptyString
      then (lines, rest, [EvInput input_prompt (Some line)])
      else match collect_lines rest (lines ++ [line]) with
           | (ls, rest', evs) =>
               (ls, rest', EvInput input_prompt (Some line) :: evs)
           end
  end.

(** ** The program *)

Section Program.

Context {codec : JsonCodec} (E : Env).

(** [os.environ.get(k, default)] *)
Definition environ_get (k default : string) : string :=
  match environ E !! k with Some v => v | None => default end.

(** [subprocess.run([command, p], check=True)] for the editor, which is
    shown the content of [p] (nothing when there is no such file). *)
Definition run_editor (command : string) (p : path) : M unit :=
  fun w =>
    let w1 := log [EvLaunch command p] (set_launches (S (launches w)) w) in
    let shown := match fs w !! p with Some c => c | None => EmptyString end in
    match editor E command (launches w) shown with
    | NotStarted why => (Raise (start_error why), w1)
    | Exited status after =>
        let files := match after with
                     | Some c => <[p := c]> (fs w)
                     | None => delete p (fs w)
                     end in
        if status =? 0 then (Ret tt, set_fs files w1)
        else (Raise (CalledProcessError status), set_fs files w1)
    end.

(** [subprocess.run([sys.executable, root / "build_bits.py"], check=True)] *)
Definition run_rebuild : M unit :=
  fun w =>
    if rebuild_status E =? 0 then (Ret tt, log [EvRebuild] w)
    else (Raise (CalledProcessError (rebuild_status E)), log [EvRebuild] w).

Definition get_user_input : M string :=
  fun w =>
    match collect_lines (stdin w) [] with
    | (lines, rest, evs) =>
        (Ret (Str.join_lines lines),
         log (EvPrint "Enter your bit (empty line to finish):" :: evs)
             (set_stdin rest w))
    end.

Definition structure_with_claude (text : string) : M json :=
  emit (EvRequest (bit_request text));;
  match api E (bit_request text) with
  | ApiFailure msg => raise (APIError msg)
  | ApiMessage content =>
      match first_tool_use content with
      | Some input => ret input
      | None => raise (ValueError "Claude didn't return structured output")
      end
  end.

(** [open_in_editor] with room for [depth] calls of it on the stack: the
    call for which there is none raises [RecursionError]. Of the exceptions
    of [json.loads] only [JSONDecodeError] is caught. *)
Fixpoint open_in_editor_at (depth : nat) (data : json) : M json :=
  match depth with
  | O => raise RecursionError
  | S depth' =>
      let editor := environ_get "EDITOR" (environ_get "VISUAL" "vim") in
      let json_str := json_dumps false data in
      temp_path <- named_temporary_file (json_str +:+ Str.nl);;
      try_finally
        (run_editor editor temp_path;;
         content <- read_file temp_path;;
         try_except (lift (json_loads content)) is_JSONDecodeError
           (fun e =>
              print ("Invalid JSON: " +:+ exn_message e);;
              retry <- input reedit_prompt;;
              if negb (answer_is_n retry)
              then original <- lift (json_loads json_str);;
                   open_in_editor_at depth' original
              else raise (SystemExit (ExitMessage "Aborted"))))
        (unlink temp_path)
  end.

(** The call that [main] makes: there is room for it and for [retry_limit]
    nested calls. *)
Definition open_in_editor (data : json) : M json :=
  open_in_editor_at (S (retry_limit E)) data.

(** [str(v)] inside an f-string. *)
Definition format_value (v : json) : string :=
  match v with JStr s => s | _ => json_repr v end.

Definition add_bit (bit : json) : M unit :=
  text <- read_file BitsJson;;
  bits <- lift (json_loads text);;
  title <- lift (getitem bit "title");;
  slug <- lift (slugify_value title);;
  bit <- lift (setitem bit "id" (JStr (slug +:+ "-" +:+ Str.of_Z (now_ms E))));;
  bit <- lift (setitem bit "date" (JStr (strftime_ymd (today E))));;
  bit <- lift (strip_each ["url"; "content"; "via"] bit);;
  bit <- lift (strip_if_falsy bit "tags");;
  bits <- lift (insert_front bits bit);;
  write_file BitsJson (json_dumps false bits +:+ Str.nl);;
  title <- lift (getitem bit "title");;
  print ("Added bit: " +:+ format_value title);;
  print "Rebuilding site...";;
  run_rebuild;;
  print "Done!".

Definition main : M unit :=
  when (String.eqb (environ_get "ANTHROPIC_API_KEY" EmptyString) EmptyString)
       (print "Error: ANTHROPIC_API_KEY environment variable not set";;
        sys_exit 1);;
  text <- get_user_input;;
  when (String.eqb (Str.strip text) EmptyString)
       (print "No input provided, exiting.";; sys_exit 0);;
  print (Str.nl +:+ "Calling Claude to structure your bit...");;
  bit <- try_except (structure_with_claude text) is_Exception
           (fun e => print ("Error calling Claude: " +:+ exn_message e);;
                     sys_exit 1);;
  print "Opening editor...";;
  bit <- open_in_editor bit;;
  print (Str.nl +:+ "Final bit:");;
  print (json_dumps true bit);;
  confirm <- input confirm_prompt;;
  when (answer_is_n confirm) (print "Aborted.";; sys_exit 0);;
  add_bit bit.

End Program.

(** ** A concrete codec

    A printer in the layout of [json.dumps(..., indent=2)] and a recursive
    descent reader for the JSON texts without fractions and exponents, with
    strings over the code points below 256. It instantiates [JsonCodec] for
    the runs evaluated below; the general theorems hold for every codec.
    It keeps the limit of 4300 digits on an integer literal. It is not the
    [json] module in full: a number with a fraction or an exponent is
    refused, a float is printed with all its digits, the message of every
    [JSONDecodeError] is the same, and the nesting has no limit. *)

Module MiniJson.

Definition quote : ascii := ascii_of_N 34.
Definition backslash : ascii := ascii_of_N 92.

Definition hex_digit (n : N) : ascii :=
  if (n <? 10)%N then ascii_of_N (48 + n) else ascii_of_N (87 + n).

(** The escape [\u00XX] of a code point below 256. *)
Definition u_escape (c : ascii) : list ascii :=
  [backslash; "u"%char; "0"%char; "0"%char;
   hex_digit (Str.code c / 16); hex_digit (Str.code c mod 16)].

Definition escape_char (ascii_only : bool) (c : ascii) : list ascii :=
  if Ascii.eqb c quote then [backslash; quote]
  else if Ascii.eqb c backslash then [backslash; backslash]
  else if (Str.code c =? 10)%N then [backslash; "n"%char]
  else if (Str.code c =? 13)%N then [backslash; "r"%char]
  else if (Str.code c =? 9)%N then [backslash; "t"%char]
  else if (Str.code c =? 8)%N then [backslash; "b"%char]
  else if (Str.code c =? 12)%N then [backslash; "f"%char]
  else if (Str.code c <? 32)%N then u_escape c
  else if ascii_only && (126 <? Str.code c)%N then u_escape c
  else [c].

Definition dump_string (ascii_only : bool) (s : string) : string :=
  Str.of_chars
    (quote :: concat (map (escape_char ascii_only) (Str.chars s)) ++ [quote]).

(** The exact decimal expansion of [m * 2^e]. *)
Definition dump_finite (m : positive) (e : Z) : string :=
  if 0 <=? e then Str.of_Z (Z.pos m * 2 ^ e) +:+ ".0"
  else
    let k := Z.to_nat (- e) in
    let digits := Str.chars (Str.of_Z (Z.pos m * 5 ^ (- e))) in
    let padded := replicate (S k - length digits) "0"%char ++ digits in
    Str.of_chars (take (length padded - k) padded ++ "."%char
                  :: drop (length padded - k) padded).

Definition dump_float (f : spec_float) : string :=
  match f with
  | S754_zero false => "0.0"
  | S754_zero true => "-0.0"
  | S754_infinity false => "Infinity"
  | S754_infinity true => "-Infinity"
  | S754_nan => "NaN"
  | S754_finite false m e => dump_finite m e
  | S754_finite true m e => "-" +:+ dump_finite m e
  end.

Fixpoint join (sep : string) (parts : list string) : string :=
  match parts with
  | [] => EmptyString
  | [p] => p
  | p :: r => p +:+ sep +:+ join sep r
  end.

Definition indent (level : nat) : string :=
  Str.of_chars (replicate (2 * level) " "%char).

Fixpoint dump (ascii_only : bool) (level : nat) (v : json) : string :=
  let fix items (l : list json) : list string :=
    match l with
    | [] => []
    | x :: r => (indent (S level) +:+ dump ascii_only (S level) x) :: items r
    end in
  let fix members (d : list (string * json)) : list string :=
    match d with
    | [] => []
    | (k, x) :: r =>
        (indent (S level) +:+ dump_string ascii_only k +:+ ": "
         +:+ dump ascii_only (S level) x) :: members r
    end in
  match v with
  | JNull => "null"
  | JBool true => "true"
  | JBool false => "false"
  | JInt n => Str.of_Z n
  | JFloat f => dump_float f
  | JStr s => dump_string ascii_only s
  | JList [] => "[]"
  | JList l =>
      "[" +:+ Str.nl +:+ join ("," +:+ Str.nl) (items l) +:+ Str.nl
      +:+ indent level +:+ "]"
  | JDict [] => "{}"
  | JDict d =>
      "{" +:+ Str.nl +:+ join ("," +:+ Str.nl) (members d) +:+ Str.nl
      +:+ indent level +:+ "}"
  end.

Definition is_ws (c : ascii) : bool :=
  (Str.code c =? 32)%N || (Str.code c =? 9)%N || (Str.code c =? 10)%N
  || (Str.code c =? 13)%N.

Fixpoint skip_ws (l : list ascii) : list ascii :=
  match l with
  | c :: r => if is_ws c then skip_ws r else l
  | [] => []
  end.

Definition hex_value (c : ascii) : option N :=
  if Str.is_digit c then Some (Str.code c - 48)%N
  else if Str.between 97 102 c then Some (Str.code c - 87)%N
  else if Str.between 65 70 c then Some (Str.code c - 55)%N
  else None.

(** [\uXXXX] for a code point below 256. *)
Definition read_u_escape (h1 h2 h3 h4 : ascii) : option ascii :=
  match hex_value h1, hex_value h2, hex_value h3, hex_value h4 with
  | Some 0%N, Some 0%N, Some a, Some b => Some (ascii_of_N (16 * a + b))
  | _, _, _, _ => None
  end.

Definition read_escape (c : ascii) : option ascii :=
  if Ascii.eqb c quote then Some quote
  else if Ascii.eqb c backslash then Some backslash
  else if Ascii.eqb c "/"%char then Some "/"%char
  else if Ascii.eqb c "n"%char then Some (ascii_of_N 10)
  else if Ascii.eqb c "r"%char then Some (ascii_of_N 13)
  else if Ascii.eqb c "t"%char then Some (ascii_of_N 9)
  else if Ascii.eqb c "b"%char then Some (ascii_of_N 8)
  else if Ascii.eqb c "f"%char then Some (ascii_of_N 12)
  else None.

(** The characters of a string literal after its opening quote, and what
    follows the closing quote. *)
Fixpoint read_string (l : list ascii) : option (list ascii * list ascii) :=
  match l with
  | [] => None
  | c :: r =>
      if Ascii.eqb c quote then Some ([], r)
      else if Ascii.eqb c backslash then
        match r with
        | "u"%char :: h1 :: h2 :: h3 :: h4 :: r' =>
            match read_u_escape h1 h2 h3 h4, read_string r' with
            | Some x, Some (s, rest) => Some (x :: s, rest)
            | _, _ => None
            end
        | e :: r' =>
            match read_escape e, read_string r' with
            | Some x, Some (s, rest) => Some (x :: s, rest)
            | _, _ => None
            end
        | [] => None
        end
      else if (Str.code c <? 32)%N then None
      else match read_string r with
           | Some (s, rest) => Some (c :: s, rest)
           | None => None
           end
  end.

Fixpoint read_digits (acc : Z) (l : list ascii) : Z * list ascii :=
  match l with
  | c :: r => if Str.is_digit c
              then read_digits (10 * acc + Z.of_N (Str.code c - 48)) r
              else (acc, l)
  | [] => (acc, [])
  end.

(** The number of digits that [l] begins with. *)
Fixpoint count_digits (l : list ascii) : nat :=
  match l with
  | c :: r => if Str.is_digit c then S (count_digits r) else O
  | [] => O
  end.

Definition starts_fraction (l : list ascii) : bool :=
  match l with
  | c :: _ => Ascii.eqb c "."%char || Ascii.eqb c "e"%char
              || Ascii.eqb c "E"%char
  | [] => false
  end.

(** What stops the reader: a syntax error, or an integer literal of [n]
    digits, more than [int] converts. *)
Inductive fault : Type :=
  | Syntax
  | Digits (n : nat).

(** What the reader makes of a text: a value and the text after it, or a
    fault. *)
Inductive parsed (A : Type) : Type :=
  | Got (a : A) (rest : list ascii)
  | Fault (f : fault).
Arguments Got {A} a rest.
Arguments Fault {A} f.

(** [sys.get_int_max_str_digits()], by default. *)
Definition max_str_digits : nat := 4300.

(** An integer literal: no leading zero, no fraction, no exponent, and no
    more digits than [max_str_digits]. *)
Definition read_nat_literal (l : list ascii) : parsed Z :=
  match l with
  | c :: r =>
      if Ascii.eqb c "0"%char then
        match r with
        | d :: _ => if Str.is_digit d || starts_fraction r then Fault Syntax
                    else Got 0 r
        | [] => Got 0 r
        end
      else if Str.is_digit c then
        if starts_fraction (drop (count_digits l) l) then Fault Syntax
        else if (max_str_digits <? count_digits l)%nat
             then Fault (Digits (count_digits l))
             else match read_digits 0 l with (n, rest) => Got n rest end
      else Fault Syntax
  | [] => Fault Syntax
  end.

Fixpoint read_value (fuel : nat) (l : list ascii) : parsed json :=
  match fuel with
  | O => Fault Syntax
  | S fuel =>
      match skip_ws l with
      | "n"%char :: "u"%char :: "l"%char :: "l"%char :: r => Got JNull r
      | "t"%char :: "r"%char :: "u"%char :: "e"%char :: r =>
          Got (JBool true) r
      | "f"%char :: "a"%char :: "l"%char :: "s"%char :: "e"%char :: r =>
          Got (JBool false) r
      | "["%char :: r =>
          match skip_ws r with
          | "]"%char :: r' => Got (JList []) r'
          | _ => match read_items fuel r with
                 | Got items rest => Got (JList items) rest
                 | Fault f => Fault f
                 end
          end
      | "{"%char :: r =>
          match skip_ws r with
          | "}"%char :: r' => Got (JDict []) r'
          | _ => match read_members fuel [] r with
                 | Got d rest => Got (JDict d) rest
                 | Fault f => Fault f
                 end
          end
      | "-"%char :: r =>
          match read_nat_literal r with
          | Got n rest => Got (JInt (- n)) rest
          | Fault f => Fault f
          end
      | c :: r =>
          if Ascii.eqb c quote then
            match read_string r with
            | Some (s, rest) => Got (JStr (Str.of_chars s)) rest
            | None => Fault Syntax
            end
          else match read_nat_literal (c :: r) with
               | Got n rest => Got (JInt n) rest
               | Fault f => Fault f
               end
      | [] => Fault Syntax
      end
  end
with read_items (fuel : nat) (l : list ascii) : parsed (list json) :=
  match fuel with
  | O => Fault Syntax
  | S fuel =>
      match read_value fuel l with
      | Got v rest =>
          match skip_ws rest with
          | ","%char :: r =>
              match read_items fuel r with
              | Got vs rest' => Got (v :: vs) rest'
              | Fault f => Fault f
              end
          | "]"%char :: r => Got [v] r
          | _ => Fault Syntax
          end
      | Fault f => Fault f
      end
  end
with read_members (fuel : nat) (acc : list (string * json)) (l : list ascii)
  : parsed (list (string * json)) :=
  match fuel with
  | O => Fault Syntax
  | S fuel =>
      match skip_ws l with
      | c :: r =>
          if Ascii.eqb c quote then
            match read_string r with
            | Some (k, rest) =>
                match skip_ws rest with
                | ":"%char :: r1 =>
                    match read_value fuel r1 with
                    | Got v rest1 =>
                        let acc' := Dict.set (Str.of_chars k) v acc in
                        match skip_ws rest1 with
                        | ","%char :: r2 => read_members fuel acc' r2
                        | "}"%char :: r2 => Got acc' r2
                        | _ => Fault Syntax
                        end
                    | Fault f => Fault f
                    end
                | _ => Fault Syntax
                end
            | None => Fault Syntax
            end
          else Fault Syntax
      | [] => Fault Syntax
      end
  end.

(** The message of [int] for a literal of [n] digits. *)
Definition digits_message (n : nat) : string :=
  "Exceeds the limit (4300 digits) for integer string conversion: value has "
  +:+ Str.of_Z (Z.of_nat n)
  +:+ " digits; use sys.set_int_max_str_digits() to increase the limit".

(** The exception of [json.loads] for a fault. *)
Definition fault_error (f : fault) : exn :=
  match f with
  | Syntax => JSONDecodeError "Expecting value"
  | Digits n => ValueError (digits_message n)
  end.

Definition loads (s : string) : res json :=
  match read_value (S (2 * length (Str.chars s))) (Str.chars s) with
  | Got v rest => match skip_ws rest with
                  | [] => Ret v
                  | _ => Raise (fault_error Syntax)
                  end
  | Fault f => Raise (fault_error f)
  end.

Definition loads_raises (s : string) (e : exn) :
  loads s = Raise e -> is_loads_error e = true.
Proof.
  unfold loads. destruct (read_value _ _) as [v rest|f].
  - destruct (skip_ws rest); [discriminate|]. intros [= <-]. reflexivity.
  - intros [= <-]. destruct f; reflexivity.
Defined.

End MiniJson.

Definition mini_codec : JsonCodec := {|
  json_dumps := fun ascii_only v => MiniJson.dump ascii_only 0 v;
  json_loads := MiniJson.loads;
  json_repr := MiniJson.dump false 0;
  json_loads_raises := MiniJson.loads_raises
|}.

(** ** Notions used in the statements *)

(** No two hyphens in a row. *)
Fixpoint separated (l : list ascii) : Prop :=
  match l with
  | a :: r => (a = Str.hyphen -> head r <> Some Str.hyphen) /\ separated r
  | [] => True
  end.

(** The slug before the cut to 50 characters. *)
Definition trimmed_slug (text : string) : list ascii :=
  sub_edge_hyphens (sub_non_alnum_runs false (Str.chars (Str.lower text))).

(** A title of 49 letters, a space and one more letter. *)
Definition long_title : string :=
  "aaaaaaaaaaaaaaaaaaaaaaaaaaaaaaaaaaaaaaaaaaaaaaaaa b".

(** One stripping step of [add_bit] on the dict: [if key in bit and not
    bit[key]: del bit[key]]. *)
Definition strip_key (key : string) (d : list (string * json))
  : list (string * json) :=
  match Dict.get key d with
  | Some v => if truthy v then d else Dict.del key d
  | None => d
  end.

(** The stripping steps of [add_bit] in their order. *)
Definition strip_empty (d : list (string * json)) : list (string * json) :=
  strip_key "tags" (strip_key "via" (strip_key "content" (strip_key "url" d))).

(** The [id] that [add_bit] derives. *)
Definition derived_id (E : Env) (title : string) : string :=
  slugify title +:+ "-" +:+ Str.of_Z (now_ms E).

(** The record that [add_bit] persists for the dict [d] with title
    [title]. *)
Definition persisted_record (E : Env) (title : string)
    (d : list (string * json)) : list (string * json) :=
  strip_empty
    (Dict.set "date" (JStr (strftime_ymd (today E)))
       (Dict.set "id" (JStr (derived_id E title)) d)).

(** [key] is absent or holds a true value. *)
Definition clean (key : string) (d : list (string * json)) : Prop :=
  forall v, Dict.get key d = Some v -> truthy v = true.

(** The keys of the optional fields that [add_bit] strips. *)
Definition stripped_keys : list string := ["url"; "content"; "via"; "tags"].

(** The outcome of the rebuild step. *)
Definition rebuild_result (E : Env) : res unit :=
  if rebuild_status E =? 0 then Ret tt
  else Raise (CalledProcessError (rebuild_status E)).




(** The store as [add_bit] leaves it: the text of a list. *)
Definition store_text {codec : JsonCodec} (records : list json) : string :=
  json_dumps false (JList records) +:+ Str.nl.

(** ** Runs and their observations *)

(** [Q] holds of the outcome and final world of [m] run from [w]. *)
Definition post {A} (m : M A) (w : World) (Q : res A -> World -> Prop)
  : Prop :=
  match m w with (r, w') => Q r w' end.

(** The events of a run from [w] to [w']. *)
Definition emitted (w w' : World) : list event :=
  drop (length (trace w)) (trace w').

(** Some [input(prompt)] in [evs] read a line, and that line is a "no"
    ([no = true]) or is not ([no = false]). *)
Definition answered (prompt : string) (no : bool) (evs : list event) : bool :=
  existsb (fun e => match e with
                    | EvInput p (Some a) =>
                        String.eqb p prompt && Bool.eqb (answer_is_n a) no
                    | _ => false
                    end) evs.

(** The events of the edit loop: temporary files, editor launches, prints
    and the re-edit prompt. *)
Definition loop_event (e : event) : bool :=
  match e with
  | EvCreate (TempFile _) _ | EvLaunch _ _ | EvUnlink (TempFile _)
  | EvPrint _ => true
  | EvInput prompt _ => String.eqb prompt reedit_prompt
  | _ => false
  end.

(** The events of the store appender. *)
Definition appender_event (e : event) : bool :=
  match e with
  | EvWrite BitsJson _ | EvPrint _ | EvRebuild => true
  | _ => false
  end.

(** The exception of the abort in the edit loop. *)
Definition aborted : exn := SystemExit (ExitMessage "Aborted").

(** The files that the events [evs] create. *)
Definition created (evs : list event) : list path :=
  omap (fun e => match e with EvCreate p _ => Some p | _ => None end) evs.

(** The editor command, the draft written for [data] and the name of the
    next temporary file. *)
Definition editor_command (E : Env) : string :=
  environ_get E "EDITOR" (environ_get E "VISUAL" "vim").
Definition draft_of {codec : JsonCodec} (data : json) : string :=
  json_dumps false data +:+ Str.nl.
Definition new_temp (w : World) : path := TempFile (temp_bound (fs w)).

(** What every run of the edit loop from [w] guarantees: the files are as
    before, the events are those of the loop and begin with [first], a
    declined re-edit ends in the abort, and every temporary file created
    was new. *)
Definition loop_post (first : option event) (w : World) (r : res json)
    (w' : World) : Prop :=
  fs w' = fs w
  /\ exists evs,
       trace w' = trace w ++ evs
       /\ head evs = first
       /\ forallb loop_event evs = true
       /\ (answered reedit_prompt true evs = true -> r = Raise aborted)
       /\ Forall (fun p => fs w !! p = None) (created evs).

(** The first event of a call of [open_in_editor_at]. *)
Definition first_event {codec : JsonCodec} (depth : nat) (data : json)
    (w : World) : option event :=
  match depth with
  | O => None
  | S _ => Some (EvCreate (new_temp w) (draft_of data))
  end.

(** The world in which the nested call of a retry starts: the answer [a]
    is read, the editor has run once and the temporary file holds the
    rejected [content]. *)
Definition retry_world {codec : JsonCodec} (E : Env) (data : json)
    (content a : string) (rest : list string) (w : World) : World :=
  {| stdin := rest;
     fs := <[new_temp w := content]> (<[new_temp w := draft_of data]> (fs w));
     launches := S (launches w);
     trace := trace w ++ [EvCreate (new_temp w) (draft_of data);
                          EvLaunch (editor_command E) (new_temp w);
                          EvPrint ("Invalid JSON: " +:+ json_error content);
                          EvInput reedit_prompt (Some a)] |}.

(** [os.unlink(p)] on a world that has [p]. *)
Definition unlinked (p : path) (w : World) : World :=
  log [EvUnlink p] (set_fs (delete p (fs w)) w).


(** Events that are neither a store write nor an answer to [prompt]. *)
Definition silent (prompt : string) (e : event) : bool :=
  match e with
  | EvWrite _ _ => false
  | EvInput p _ => negb (String.eqb p prompt)
  | _ => true
  end.

(** The run ends by [SystemExit] or at the end of stdin. *)
Definition leaves_by_exit {A} (r : res A) : bool :=
  match r with
  | Raise (SystemExit _) | Raise EOFError => true
  | _ => false
  end.

(** The text that [get_user_input] returns in [w]. *)
Definition user_text (w : World) : string :=
  Str.join_lines (fst (fst (collect_lines (stdin w) []))).

(** The structured payload of an API reply, if it has one. *)
Definition structured (reply : api_reply) : option json :=
  match reply with
  | ApiFailure _ => None
  | ApiMessage content => first_tool_use content
  end.

(** [v] is a mapping with a non-empty string under [title]. *)
Definition has_nonempty_title (v : json) : bool :=
  match getitem v "title" with
  | Ret (JStr s) => negb (String.eqb s EmptyString)
  | _ => false
  end.

(** The events before the edit loop: prints, the input prompt and the API
    request. *)
Definition prelude_event (e : event) : bool :=
  match e with
  | EvPrint _ | EvRequest _ => true
  | EvInput prompt _ => String.eqb prompt input_prompt
  | _ => false
  end.

(** Every write in [evs] comes after a confirmation: [confirmed] tells that
    the final prompt has already been answered with something else than a
    "no". *)
Fixpoint writes_follow_confirm (confirmed : bool) (evs : list event) : bool :=
  match evs with
  | [] => true
  | EvWrite _ _ :: rest => confirmed && writes_follow_confirm confirmed rest
  | e :: rest =>
      writes_follow_confirm
        (confirmed || answered confirm_prompt false [e]) rest
  end.

(** What every run of [main] from [w] guarantees. *)
Definition main_post (w : World) (r : res unit) (w' : World) : Prop :=
  exists evs,
    trace w' = trace w ++ evs
    /\ (answered confirm_prompt false evs = false -> fs w' = fs w)
    /\ writes_follow_confirm false evs = true
    /\ (answered confirm_prompt true evs = true ->
        r = Raise (SystemExit (ExitCode 0)))
    /\ (answered reedit_prompt true evs = true -> r = Raise aborted)
    /\ (answered confirm_prompt false evs = true -> leaves_by_exit r = false).

(** ** Sample runs

    Concrete worlds on which the statements below are evaluated, all with
    the codec [mini_codec]. *)

Definition sample_bit : json :=
  JDict [("title", JStr "Example"); ("url", JStr "http://x");
         ("tags", JList [JStr "a"])].

(** A bit whose optional fields are empty. *)
Definition sparse_bit : list (string * json) :=
  [("title", JStr "Example"); ("url", JStr EmptyString); ("tags", JList [])].

Definition sample_date : date :=
  {| tm_year := 2026; tm_mon := 11; tm_mday := 3 |}.

(** An editor that exits at once and leaves the draft as it is. *)
Definition keep_editor : string -> nat -> string -> session :=
  fun _ _ draft => Exited 0 (Some draft).

(** An editor whose first session leaves a text that is no JSON. *)
Definition clumsy_editor : string -> nat -> string -> session :=
  fun _ n draft =>
    match n with
    | O => Exited 0 (Some "{ broken")
    | S _ => Exited 0 (Some draft)
    end.

(** An editor that exits with status 1. *)
Definition failing_editor : string -> nat -> string -> session :=
  fun _ _ draft => Exited 1 (Some draft).

Definition sample_reply : api_reply :=
  ApiMessage [TextBlock "Here is the bit."; ToolUseBlock "create_bit" sample_bit].

Definition sample_env (ed : string -> nat -> string -> session)
    (reply : api_reply) : Env :=
  {| environ := {[ "ANTHROPIC_API_KEY" := "sk-test"; "EDITOR" := "ed" ]};
     api := fun _ => reply;
     editor := ed;
     now_ms := 1793707200123;
     today := sample_date;
     rebuild_status := 0;
     retry_limit := 990 |}.

(** A world with the given lines on stdin and an empty store. *)
Definition sample_world (lines : list string) : World :=
  {| stdin := lines; fs := {[ BitsJson := "[]" ]}; launches := 0;
     trace := [] |}.


(** The whole program with the clumsy editor and a user who declines the
    re-edit. *)
Definition declined_reedit_run : res unit * World :=
  main (codec := mini_codec) (sample_env clumsy_editor sample_reply)
    (sample_world ["a new bit"; EmptyString; "n"]).

(** An API reply whose payload has an empty title. *)
Definition untitled_reply : api_reply :=
  ApiMessage [ToolUseBlock "create_bit" (JDict [("title", JStr EmptyString)])].

(** Runs of the whole program that stop before the store is appended to:
    blank input, a failed API call, a failed editor, and a "no" at the
    final prompt. *)
Definition blank_run : res unit * World :=
  main (codec := mini_codec) (sample_env keep_editor sample_reply)
    (sample_world [" "; EmptyString]).

Definition failed_api_run : res unit * World :=
  main (codec := mini_codec)
    (sample_env keep_editor (ApiFailure "Overloaded"))
    (sample_world ["a new bit"; EmptyString]).

Definition failed_editor_run : res unit * World :=
  main (codec := mini_codec) (sample_env failing_editor sample_reply)
    (sample_world ["a new bit"; EmptyString]).

Definition declined_confirm_run : res unit * World :=
  main (codec := mini_codec) (sample_env keep_editor sample_reply)
    (sample_world ["a new bit"; EmptyString; " N "]).

(** An environment without the API key. *)
Definition keyless_env : Env :=
  {| environ := {[ "EDITOR" := "ed" ]};
     api := fun _ => sample_reply;
     editor := keep_editor;
     now_ms := 1793707200123;
     today := sample_date;
     rebuild_status := 0;
     retry_limit := 990 |}.

(** An editor that replaces the draft by an empty list. *)
Definition list_editor : string -> nat -> string -> session :=
  fun _ _ _ => Exited 0 (Some "[]").

(** The record persisted for [sparse_bit] in the sample environment. *)
Definition sparse_record : json :=
  JDict [("title", JStr "Example"); ("id", JStr "example-1793707200123");
         ("date", JStr "2026-11-03")].

(** A second bit and its record. *)
Definition second_bit : list (string * json) :=
  [("title", JStr "Second one"); ("via", JStr "Hacker News")].

Definition second_record : json :=
  JDict [("title", JStr "Second one"); ("via", JStr "Hacker News");
         ("id", JStr "second-one-1793707200123"); ("date", JStr "2026-11-03")].

(** ** Notions used in the further results *)

(** The events of the [input] calls that return the lines [lines]. *)
Definition prompts (lines : list string) : list event :=
  map (fun l => EvInput input_prompt (Some l)) lines.

(** A line of white space only. *)
Definition is_blank (line : string) : Prop :=
  Forall (fun c => Str.is_space c = true) (Str.chars line).

(** An ASCII letter or digit. *)
Definition is_ascii_alnum (c : ascii) : bool :=
  Str.between 97 122 c || Str.between 65 90 c || Str.between 48 57 c.


(** What [add_bit] prints and runs after the write. *)
Definition closing_events (E : Env) (title : string) : list event :=
  [EvPrint ("Added bit: " +:+ title); EvPrint "Rebuilding site...";
   EvRebuild]
  ++ (if rebuild_status E =? 0 then [EvPrint "Done!"] else []).

Definition is_list (v : json) : bool :=
  match v with JList _ => true | _ => false end.

Definition is_str (v : json) : bool :=
  match v with JStr _ => true | _ => false end.

(** The keys of a dict, in their order. *)
Definition dict_keys (d : list (string * json)) : list string := map fst d.

(** The keys that [add_bit] sets or may delete. *)
Definition touched_keys : list string := "id" :: "date" :: stripped_keys.

(** The key [k] of [d] is one that [add_bit] deletes. *)
Definition dropped (d : list (string * json)) (k : string) : bool :=
  existsb (String.eqb k) stripped_keys
  && match Dict.get k d with
     | Some v => negb (truthy v)
     | None => false
     end.

Definition is_text (b : block) : bool :=
  match b with TextBlock _ => true | ToolUseBlock _ _ => false end.

(** The lines that the input phase of [main] gathers in [w], the events of
    that phase and the lines it leaves on stdin. *)
Definition lines_read (w : World) : list string :=
  fst (fst (collect_lines (stdin w) [])).

Definition input_events (w : World) : list event :=
  EvPrint "Enter your bit (empty line to finish):"
  :: snd (collect_lines (stdin w) []).

Definition lines_left (w : World) : list string :=
  snd (fst (collect_lines (stdin w) [])).


(** ** Further sample runs *)


(** An editor that cannot be started, and one that removes the file it was
    given. *)
Definition absent_editor : string -> nat -> string -> session :=
  fun _ _ _ => NotStarted NotFound.

Definition removing_editor : string -> nat -> string -> session :=
  fun _ _ _ => Exited 0 None.

(** An environment in which the rebuild script exits with status 2. *)
Definition failing_rebuild_env : Env :=
  {| environ := {[ "ANTHROPIC_API_KEY" := "sk-test"; "EDITOR" := "ed" ]};
     api := fun _ => sample_reply;
     editor := keep_editor;
     now_ms := 1793707200123;
     today := sample_date;
     rebuild_status := 2;
     retry_limit := 990 |}.

(** An environment whose API key is the empty string. *)
Definition empty_key_env : Env :=
  {| environ := {[ "ANTHROPIC_API_KEY" := EmptyString; "EDITOR" := "ed" ]};
     api := fun _ => sample_reply;
     editor := keep_editor;
     now_ms := 1793707200123;
     today := sample_date;
     rebuild_status := 0;
     retry_limit := 990 |}.



(** A bit with a field that [add_bit] does not know. *)
Definition noted_bit : list (string * json) :=
  [("title", JStr "Example"); ("url", JStr EmptyString);
   ("note", JStr EmptyString); ("via", JStr "Hacker News");
   ("tags", JList [])].


(** The message that [main] prints for a reply without payload. *)
Definition structuring_error (reply : api_reply) : string :=
  match reply with
  | ApiFailure msg => msg
  | ApiMessage _ => "Claude didn't return structured output"
  end.

(** A reply in prose, without a [tool_use] block. *)
Definition prose_reply : api_reply := ApiMessage [TextBlock "Sorry."].

(** ** Sample runs at the limits of the interpreter *)

(** A JSON integer literal: an optional minus sign, then a zero, or a digit
    other than zero followed by digits. *)
Definition is_json_integer (s : string) : bool :=
  let digits := match Str.chars s with
                | c :: r => if Ascii.eqb c "-"%char then r else c :: r
                | [] => []
                end in
  match digits with
  | [] => false
  | [c] => Str.is_digit c
  | c :: r => Str.is_digit c && negb (Ascii.eqb c "0"%char)
              && forallb Str.is_digit r
  end.

(** The integer literal of 4301 digits 1. *)
Definition huge_number : string := Str.of_chars (replicate 4301 "1"%char).

(** An editor that replaces the draft by [huge_number]. *)
Definition number_editor : string -> nat -> string -> session :=
  fun _ _ _ => Exited 0 (Some huge_number).

(** The whole program with that editor. *)
Definition huge_number_run : res unit * World :=
  main (codec := mini_codec) (sample_env number_editor sample_reply)
    (sample_world ["a new bit"; EmptyString; "y"]).

(** An editor that may not be executed, and one that the system cannot
    execute. *)
Definition forbidden_editor : string -> nat -> string -> session :=
  fun _ _ _ => NotStarted NotPermitted.

Definition misformed_editor : string -> nat -> string -> session :=
  fun _ _ _ => NotStarted NotExecutable.


(** * Properties *)

(** ** slugify *)

Lemma chars_of_chars (l : list ascii) : Str.chars (Str.of_chars l) = l.
Proof. apply String.list_ascii_of_string_of_list_ascii. Qed.

Lemma slug_char_not_hyphen (c : ascii) :
  Str.is_slug_char c = true -> c <> Str.hyphen.
Proof. intros H ->. vm_compute in H. discriminate. Qed.

(** Inside a run the substitution gives no hyphen first. *)
Lemma sub_in_run_head (l : list ascii) :
  head (sub_non_alnum_runs true l) <> Some Str.hyphen.
Proof.
  induction l as [|c r IH]; simpl; [discriminate|].
  destruct (Str.is_slug_char c) eqn:Hc; [|exact IH].
  simpl. intros [= ->]. vm_compute in Hc. discriminate.
Qed.

Lemma sub_separated (b : bool) (l : list ascii) :
  separated (sub_non_alnum_runs b l).
Proof.
  revert b. induction l as [|c r IH]; intros b; simpl; [exact I|].
  destruct (Str.is_slug_char c) eqn:Hc.
  - simpl. split; [|apply IH].
    intros ->. vm_compute in Hc. discriminate.
  - destruct b; [apply IH|].
    simpl. split; [|apply IH]. intros _. apply sub_in_run_head.
Qed.

Lemma sub_alphabet (b : bool) (l : list ascii) :
  Forall (fun c => Str.is_slug_char c = true \/ c = Str.hyphen)
         (sub_non_alnum_runs b l).
Proof.
  revert b. induction l as [|c r IH]; intros b; simpl; [constructor|].
  destruct (Str.is_slug_char c) eqn:Hc.
  - constructor; [by left | apply IH].
  - destruct b; [apply IH|]. constructor; [by right | apply IH].
Qed.

Lemma drop_final_hyphen_sublist (l : list ascii) :
  sublist (drop_final_hyphen l) l.
Proof.
  induction l as [|c [|c' r] IH]; simpl in *.
  - constructor.
  - destruct (Ascii.eqb c Str.hyphen); [by apply sublist_nil_l | done].
  - by apply sublist_skip.
Qed.

Lemma sub_edge_hyphens_sublist (l : list ascii) :
  sublist (sub_edge_hyphens l) l.
Proof.
  destruct l as [|c r]; unfold sub_edge_hyphens; [constructor|].
  destruct (Ascii.eqb c Str.hyphen).
  - apply sublist_cons, drop_final_hyphen_sublist.
  - apply (drop_final_hyphen_sublist (c :: r)).
Qed.

Lemma drop_final_hyphen_head (l : list ascii) :
  head l <> Some Str.hyphen -> head (drop_final_hyphen l) <> Some Str.hyphen.
Proof.
  destruct l as [|c [|c' r]]; simpl; try done.
  intros H. destruct (Ascii.eqb c Str.hyphen); done.
Qed.

Lemma drop_final_hyphen_nil (l : list ascii) :
  drop_final_hyphen l = [] -> l = [] \/ l = [Str.hyphen].
Proof.
  destruct l as [|c [|c' r]]; simpl; [by left | | done].
  destruct (Ascii.eqb_spec c Str.hyphen) as [->|]; [by right | done].
Qed.

Lemma drop_final_hyphen_last (l : list ascii) :
  separated l -> last (drop_final_hyphen l) <> Some Str.hyphen.
Proof.
  induction l as [|c r IH]; [done|].
  destruct r as [|c' r].
  - intros _. simpl.
    destruct (Ascii.eqb_spec c Str.hyphen) as [->|Hne]; [done|].
    simpl. congruence.
  - intros [Hc Hsep]. specialize (IH Hsep).
    change (drop_final_hyphen (c :: c' :: r))
      with (c :: drop_final_hyphen (c' :: r)).
    destruct (drop_final_hyphen (c' :: r)) as [|d t] eqn:Hd.
    + apply drop_final_hyphen_nil in Hd as [Hd|Hd]; [done|].
      injection Hd as -> ->. simpl. intros [= ->]. by apply Hc.
    + exact IH.
Qed.

Lemma separated_tail (c : ascii) (l : list ascii) :
  separated (c :: l) -> separated l.
Proof. by intros [_ H]. Qed.

Lemma sub_edge_hyphens_head (b : bool) (l : list ascii) :
  head (sub_edge_hyphens (sub_non_alnum_runs b l)) <> Some Str.hyphen.
Proof.
  pose proof (sub_separated b l) as Hsep.
  destruct (sub_non_alnum_runs b l) as [|c r]; unfold sub_edge_hyphens;
    [done|].
  destruct (Ascii.eqb_spec c Str.hyphen) as [->|Hne].
  - apply drop_final_hyphen_head. destruct Hsep as [Hc _]. by apply Hc.
  - apply (drop_final_hyphen_head (c :: r)). simpl. congruence.
Qed.

Lemma sub_edge_hyphens_last (b : bool) (l : list ascii) :
  last (sub_edge_hyphens (sub_non_alnum_runs b l)) <> Some Str.hyphen.
Proof.
  pose proof (sub_separated b l) as Hsep.
  destruct (sub_non_alnum_runs b l) as [|c r]; unfold sub_edge_hyphens;
    [done|].
  destruct (Ascii.eqb c Str.hyphen).
  - apply drop_final_hyphen_last. by apply separated_tail in Hsep.
  - by apply (drop_final_hyphen_last (c :: r)).
Qed.

Lemma slugify_trimmed (text : string) :
  Str.chars (slugify text) = take 50 (trimmed_slug text).
Proof. unfold slugify, trimmed_slug. apply chars_of_chars. Qed.

(** What holds of every slug: at most 50 characters, all of them lowercase
    letters, digits or hyphens, and no hyphen in first position. *)
Lemma slugify_shape (text : string) :
  (length (Str.chars (slugify text)) <= 50)%nat
  /\ Forall (fun c => Str.is_slug_char c = true \/ c = Str.hyphen)
            (Str.chars (slugify text))
  /\ head (Str.chars (slugify text)) <> Some Str.hyphen.
Proof.
  rewrite slugify_trimmed. unfold trimmed_slug. repeat split.
  - rewrite length_take. lia.
  - apply Forall_take, Forall_forall. intros c Hc.
    pose proof (sub_alphabet false (Str.chars (Str.lower text))) as Hall.
    rewrite Forall_forall in Hall. apply Hall.
    eapply elem_of_sublist; [exact Hc | apply sub_edge_hyphens_sublist].
  - pose proof (sub_edge_hyphens_head false (Str.chars (Str.lower text))) as H.
    destruct (sub_edge_hyphens _) as [|c r]; simpl; done.
Qed.

(** A slug that the cut leaves whole has no hyphen in last position. *)
Lemma slugify_last_uncut (text : string) :
  (length (trimmed_slug text) <= 50)%nat ->
  last (Str.chars (slugify text)) <> Some Str.hyphen.
Proof.
  intros Hlen. rewrite slugify_trimmed, take_ge by done.
  apply sub_edge_hyphens_last.
Qed.

Lemma slugify_hello_world : slugify "Hello, World!!" = "hello-world".
Proof. reflexivity. Qed.

Lemma slugify_empty : slugify EmptyString = EmptyString.
Proof. reflexivity. Qed.

(** C4. [slugify] trims the hyphens at both ends before it cuts the text to
    50 characters, so the cut can leave a hyphen in last position: the slug
    of [long_title] is 49 letters followed by a hyphen. The claim's other
    parts hold ([slugify_hello_world], [slugify_empty], [slugify_shape]). *)
Theorem slugify_cut_leaves_trailing_hyphen :
  slugify long_title
  = "aaaaaaaaaaaaaaaaaaaaaaaaaaaaaaaaaaaaaaaaaaaaaaaaa-"
  /\ length (Str.chars (slugify long_title)) = 50%nat
  /\ last (Str.chars (slugify long_title)) = Some Str.hyphen.
Proof. repeat split; reflexivity. Qed.

(** ** Dicts *)

Lemma get_set_eq (k : string) (v : json) (d : list (string * json)) :
  Dict.get k (Dict.set k v d) = Some v.
Proof.
  induction d as [|[k' v'] r IH]; simpl.
  - by rewrite String.eqb_refl.
  - destruct (String.eqb k' k) eqn:Hk; simpl.
    + by rewrite String.eqb_refl.
    + by rewrite Hk.
Qed.

Lemma get_set_ne (k k' : string) (v : json) (d : list (string * json)) :
  k <> k' -> Dict.get k' (Dict.set k v d) = Dict.get k' d.
Proof.
  intros Hne. induction d as [|[k0 v0] r IH]; simpl.
  - by apply String.eqb_neq in Hne as ->.
  - destruct (String.eqb_spec k0 k) as [->|Hk0]; simpl.
    + by apply String.eqb_neq in Hne as ->.
    + by rewrite IH.
Qed.

Lemma get_del_eq (k : string) (d : list (string * json)) :
  Dict.get k (Dict.del k d) = None.
Proof.
  unfold Dict.del. induction d as [|[k' v'] r IH]; simpl; [done|].
  destruct (String.eqb k' k) eqn:Hk; simpl; [done|]. by rewrite Hk.
Qed.

Lemma get_del_ne (k k' : string) (d : list (string * json)) :
  k <> k' -> Dict.get k' (Dict.del k d) = Dict.get k' d.
Proof.
  intros Hne. unfold Dict.del.
  induction d as [|[k0 v0] r IH]; simpl; [done|].
  destruct (String.eqb_spec k0 k) as [->|Hk0]; simpl.
  - by apply String.eqb_neq in Hne as ->.
  - by rewrite IH.
Qed.

(** ** Stripping the empty fields *)

Lemma strip_key_clean (key : string) (d : list (string * json)) :
  clean key (strip_key key d).
Proof.
  unfold clean, strip_key. intros v.
  destruct (Dict.get key d) as [x|] eqn:Hget.
  - destruct (truthy x) eqn:Hx.
    + rewrite Hget. by intros [= <-].
    + by rewrite get_del_eq.
  - by rewrite Hget.
Qed.

Lemma strip_key_get_ne (key k : string) (d : list (string * json)) :
  key <> k -> Dict.get k (strip_key key d) = Dict.get k d.
Proof.
  intros Hne. unfold strip_key.
  destruct (Dict.get key d) as [x|]; [|done].
  destruct (truthy x); [done|]. by apply get_del_ne.
Qed.

Lemma strip_key_keeps_clean (key k : string) (d : list (string * json)) :
  clean k d -> clean k (strip_key key d).
Proof.
  intros Hc. destruct (String.eqb_spec key k) as [->|Hne].
  - apply strip_key_clean.
  - unfold clean. by rewrite strip_key_get_ne.
Qed.

Lemma strip_key_id (key : string) (d : list (string * json)) :
  clean key d -> strip_key key d = d.
Proof.
  unfold clean, strip_key. intros Hc.
  destruct (Dict.get key d) as [x|]; [|done]. by rewrite (Hc x).
Qed.

Lemma strip_key_falsy (key : string) (v : json) (d : list (string * json)) :
  Dict.get key d = Some v -> truthy v = false ->
  Dict.get key (strip_key key d) = None.
Proof.
  intros Hget Hv. unfold strip_key. rewrite Hget, Hv. apply get_del_eq.
Qed.

Lemma strip_key_absent (key k : string) (d : list (string * json)) :
  Dict.get k d = None -> Dict.get k (strip_key key d) = None.
Proof.
  intros Hnone. destruct (String.eqb_spec key k) as [->|Hne].
  - unfold strip_key. by rewrite Hnone.
  - by rewrite strip_key_get_ne.
Qed.

Lemma strip_empty_clean (key : string) (d : list (string * json)) :
  key ∈ stripped_keys -> clean key (strip_empty d).
Proof.
  unfold stripped_keys, strip_empty. rewrite !elem_of_cons, elem_of_nil.
  intros [->|[->|[->|[->|[]]]]];
    repeat first [ apply strip_key_clean | apply strip_key_keeps_clean ].
Qed.

Lemma strip_empty_falsy (key : string) (v : json) (d : list (string * json)) :
  key ∈ stripped_keys -> Dict.get key d = Some v -> truthy v = false ->
  Dict.get key (strip_empty d) = None.
Proof.
  unfold stripped_keys, strip_empty. rewrite !elem_of_cons, elem_of_nil.
  intros [->|[->|[->|[->|[]]]]] Hget Hv.
  - do 3 apply strip_key_absent. by apply (strip_key_falsy _ v).
  - do 2 apply strip_key_absent. apply (strip_key_falsy _ v); [|done].
    by rewrite strip_key_get_ne.
  - apply strip_key_absent. apply (strip_key_falsy _ v); [|done].
    by rewrite !strip_key_get_ne.
  - apply (strip_key_falsy _ v); [|done]. by rewrite !strip_key_get_ne.
Qed.

Lemma strip_empty_other (k : string) (d : list (string * json)) :
  k ∉ stripped_keys -> Dict.get k (strip_empty d) = Dict.get k d.
Proof.
  unfold stripped_keys, strip_empty. rewrite !not_elem_of_cons.
  intros (? & ? & ? & ? & _). by rewrite !strip_key_get_ne.
Qed.

Lemma strip_empty_idempotent (d : list (string * json)) :
  strip_empty (strip_empty d) = strip_empty d.
Proof.
  assert (forall k, k ∈ stripped_keys -> clean k (strip_empty d)) as Hc
    by (intros k Hk; by apply strip_empty_clean).
  unfold strip_empty at 1.
  rewrite (strip_key_id "url") by (apply Hc; set_solver).
  rewrite (strip_key_id "content") by (apply Hc; set_solver).
  rewrite (strip_key_id "via") by (apply Hc; set_solver).
  rewrite (strip_key_id "tags") by (apply Hc; set_solver).
  done.
Qed.

(** ** The store appender *)

Lemma strip_if_falsy_dict (d : list (string * json)) (key : string) :
  strip_if_falsy (JDict d) key = Ret (JDict (strip_key key d)).
Proof.
  unfold strip_if_falsy, strip_key.
  destruct (Dict.get key d) as [v|]; [|done]. by destruct (truthy v).
Qed.

Lemma persisted_record_title (E : Env) (title : string) (v : json)
    (d : list (string * json)) :
  Dict.get "title" d = Some v ->
  Dict.get "title" (persisted_record E title d) = Some v.
Proof.
  intros Hget. unfold persisted_record.
  rewrite strip_empty_other
    by (unfold stripped_keys; rewrite !not_elem_of_cons; repeat split;
        (discriminate || apply not_elem_of_nil)).
  by rewrite !get_set_ne.
Qed.

Section StoreAppender.

Context {codec : JsonCodec} (E : Env).

(** What [add_bit] does on a dict with a string title when the store holds
    a list: the record goes in front of the list, the list is written back,
    and the outcome is that of the rebuild. *)
Lemma add_bit_run (d : list (string * json)) (title text : string)
    (olds : list json) (w : World) :
  fs w !! BitsJson = Some text ->
  json_loads text = Ret (JList olds) ->
  Dict.get "title" d = Some (JStr title) ->
  exists w' evs,
    add_bit E (JDict d) w = (rebuild_result E, w')
    /\ fs w' = <[BitsJson :=
                  json_dumps false
                    (JList (JDict (persisted_record E title d) :: olds))
                  +:+ Str.nl]> (fs w)
    /\ stdin w' = stdin w
    /\ trace w' = trace w ++ evs.
Proof.
  intros Hfs Hloads Htitle.
  pose proof (persisted_record_title E title _ d Htitle) as Htitle'.
  unfold add_bit, bind, read_file, lift, ret. rewrite Hfs, Hloads.
  cbn [getitem]. rewrite Htitle. cbn [slugify_value setitem].
  fold (derived_id E title).
  unfold strip_each. rewrite !strip_if_falsy_dict.
  fold (strip_empty (Dict.set "date" (JStr (strftime_ymd (today E)))
                       (Dict.set "id" (JStr (derived_id E title)) d))).
  fold (persisted_record E title d).
  cbn [insert_front getitem]. rewrite Htitle'.
  unfold write_file, print, emit, run_rebuild, rebuild_result.
  destruct (rebuild_status E =? 0); cbn; eexists _, _;
    (split; [reflexivity|]); cbn; rewrite <- ?app_assoc; done.
Qed.

End StoreAppender.

(** ** Derived fields *)

Lemma chars_append (a b : string) :
  Str.chars (a +:+ b) = Str.chars a ++ Str.chars b.
Proof.
  induction a as [|c a IH]; [reflexivity|].
  change (String c a +:+ b) with (String c (a +:+ b)).
  unfold Str.chars in *. simpl. by rewrite IH.
Qed.

Lemma uint_digits (u : Decimal.uint) :
  forallb Str.is_digit (Str.chars (NilEmpty.string_of_uint u)) = true.
Proof. induction u; simpl; done. Qed.

(** [str(n)] of a natural number: one digit at least, and digits only. *)
Lemma of_Z_digits (n : Z) :
  0 <= n ->
  Str.chars (Str.of_Z n) <> []
  /\ forallb Str.is_digit (Str.chars (Str.of_Z n)) = true.
Proof.
  intros Hn. destruct n as [|p|p]; [done| |lia].
  unfold Str.of_Z. simpl.
  pose proof (DecimalPos.Unsigned.to_uint_nonnil p) as Hp.
  pose proof (uint_digits (Pos.to_uint p)) as Hd.
  destruct (Pos.to_uint p) eqn:Hu; try done.
Qed.





(** ** Reasoning about runs *)

Lemma post_conseq {A} (m : M A) (w : World) (Q Q' : res A -> World -> Prop) :
  post m w Q -> (forall r w', Q r w' -> Q' r w') -> post m w Q'.
Proof. unfold post. destruct (m w). auto. Qed.

Lemma post_bind {A B} (m : M A) (k : A -> M B) (w : World)
    (Q : res B -> World -> Prop) :
  post m w (fun r w1 => match r with
                        | Ret a => post (k a) w1 Q
                        | Raise e => Q (Raise e) w1
                        end) ->
  post (bind m k) w Q.
Proof. unfold post, bind. by destruct (m w) as [[a|e] w1]. Qed.

Lemma post_try_finally {A} (body : M A) (final : M unit) (w : World)
    (Q : res A -> World -> Prop) :
  post body w (fun r w1 =>
    post final w1 (fun rf w2 => match rf with
                                | Ret _ => Q r w2
                                | Raise e => Q (Raise e) w2
                                end)) ->
  post (try_finally body final) w Q.
Proof.
  unfold post, try_finally. destruct (body w) as [r w1].
  by destruct (final w1) as [[[]|e] w2].
Qed.

Lemma post_try_except {A} (body : M A) (caught : exn -> bool)
    (handler : exn -> M A) (w : World) (Q : res A -> World -> Prop) :
  post body w (fun r w1 => match r with
                           | Ret a => Q (Ret a) w1
                           | Raise e => if caught e then post (handler e) w1 Q
                                        else Q (Raise e) w1
                           end) ->
  post (try_except body caught handler) w Q.
Proof.
  unfold post, try_except. destruct (body w) as [[a|e] w1]; [done|].
  by destruct (caught e).
Qed.

Lemma emitted_app (w w' : World) (evs : list event) :
  trace w' = trace w ++ evs -> emitted w w' = evs.
Proof. intros H. unfold emitted. by rewrite H, drop_app_length. Qed.

Lemma answered_app (prompt : string) (no : bool) (l1 l2 : list event) :
  answered prompt no (l1 ++ l2)
  = answered prompt no l1 || answered prompt no l2.
Proof. apply existsb_app. Qed.

(** ** Temporary files *)

Lemma temp_bound_above (m : gmap path string) (n : nat) (c : string) :
  m !! TempFile n = Some c -> (n < temp_bound m)%nat.
Proof.
  intros H. apply elem_of_map_to_list in H. unfold temp_bound.
  induction (map_to_list m) as [|[q x] l IH]; [by apply elem_of_nil in H|].
  apply elem_of_cons in H as [[= <- <-]|H]; simpl.
  - lia.
  - specialize (IH H). destruct q; lia.
Qed.

(** The name of a new temporary file is not in use. *)
Lemma temp_bound_fresh (m : gmap path string) :
  m !! TempFile (temp_bound m) = None.
Proof.
  destruct (m !! TempFile (temp_bound m)) as [c|] eqn:H; [|done].
  apply temp_bound_above in H. lia.
Qed.

Lemma post_run {A} (m : M A) (w : World) (Q : res A -> World -> Prop) :
  post m w Q <-> Q (fst (m w)) (snd (m w)).
Proof. unfold post. by destruct (m w). Qed.

(** ** The edit loop *)

Lemma loop_post_intro (first : option event) (w : World) (r : res json)
    (w' : World) (evs : list event) :
  trace w' = trace w ++ evs ->
  fs w' = fs w ->
  head evs = first ->
  forallb loop_event evs = true ->
  (answered reedit_prompt true evs = true -> r = Raise aborted) ->
  Forall (fun p => fs w !! p = None) (created evs) ->
  loop_post first w r w'.
Proof. intros. split; [done|]. by exists evs. Qed.

Ltac world_simpl :=
  cbn [fs log set_fs set_stdin set_launches launches trace stdin].

(** Closes the goal [loop_post] of a path that makes no nested call. *)
Ltac loop_leaf Hfresh :=
  eapply loop_post_intro; world_simpl;
  [ rewrite <- ?app_assoc; reflexivity
  | rewrite ?delete_insert_eq, ?delete_delete_eq, delete_id by exact Hfresh;
    reflexivity
  | reflexivity
  | reflexivity
  | cbn; try discriminate
  | cbn; repeat constructor; exact Hfresh ].

Section EditLoop.

Context {codec : JsonCodec} (E : Env).

Lemma open_in_editor_at_post (depth : nat) (data : json) (w : World) :
  post (open_in_editor_at E depth data) w
       (loop_post (first_event depth data w) w).
Proof.
  revert data w. induction depth as [|depth IH]; intros data w.
  { unfold post, loop_post. cbn. split; [done|]. exists [].
    rewrite app_nil_r. repeat split; done. }
  cbn [open_in_editor_at first_event]. unfold draft_of, new_temp.
  set (cmd := environ_get E "EDITOR" (environ_get E "VISUAL" "vim")).
  set (draft := json_dumps false data +:+ Str.nl).
  pose proof (temp_bound_fresh (fs w)) as Hfresh.
  apply post_bind. unfold post at 1, named_temporary_file.
  set (p := TempFile (temp_bound (fs w))) in *.
  apply post_try_finally. apply post_bind.
  unfold post at 1, run_editor. world_simpl.
  rewrite lookup_insert_eq. cbv beta iota zeta.
  destruct (editor E cmd (launches w) draft) as [|st after].
  { unfold post, unlink. world_simpl. rewrite lookup_insert_eq.
    loop_leaf Hfresh. }
  destruct (st =? 0) eqn:Hst.
  2:{ unfold post, unlink. world_simpl.
      destruct after as [c|]; rewrite ?lookup_insert_eq, ?lookup_delete_eq;
        loop_leaf Hfresh. }
  apply post_bind. unfold post at 1, read_file. world_simpl.
  destruct after as [content|]; rewrite ?lookup_insert_eq, ?lookup_delete_eq.
  2:{ unfold post, unlink. world_simpl. rewrite lookup_delete_eq.
      loop_leaf Hfresh. }
  apply post_try_except. unfold post at 1, lift.
  destruct (json_loads content) as [v|e].
  { unfold post, unlink. world_simpl. rewrite lookup_insert_eq.
    loop_leaf Hfresh. }
  destruct (is_JSONDecodeError e).
  2:{ unfold post, unlink. world_simpl. rewrite lookup_insert_eq.
      loop_leaf Hfresh. }
  apply post_bind. unfold post at 1, print, emit.
  apply post_bind. unfold post at 1, input. world_simpl.
  destruct (stdin w) as [|a rest].
  { unfold post, unlink. world_simpl. rewrite lookup_insert_eq.
    loop_leaf Hfresh. }
  destruct (answer_is_n a) eqn:Ha; cbn [negb].
  { unfold post, unlink, raise. world_simpl. rewrite lookup_insert_eq.
    loop_leaf Hfresh. reflexivity. }
  apply post_bind. unfold post at 1, lift.
  destruct (json_loads (json_dumps false data)) as [original|e'].
  2:{ unfold post, unlink. world_simpl. rewrite lookup_insert_eq.
      loop_leaf Hfresh. rewrite Ha. discriminate. }
  eapply post_conseq; [apply IH|].
  intros r w2 [Hfs2 (evs2 & Htr & _ & Hev & Hans & Hcr)].
  revert Hfs2 Htr Hcr. world_simpl. intros Hfs2 Htr Hcr.
  assert (fs w2 !! p = Some content) as Hp
    by (rewrite Hfs2; apply lookup_insert_eq).
  unfold post, unlink. rewrite Hp.
  eapply loop_post_intro; world_simpl.
  - rewrite Htr, <- !app_assoc. reflexivity.
  - rewrite Hfs2, !delete_insert_eq, delete_id by exact Hfresh. reflexivity.
  - reflexivity.
  - cbn [app forallb loop_event]. rewrite forallb_app, Hev. reflexivity.
  - cbn [app]. unfold answered. cbn [existsb]. rewrite Ha, existsb_app.
    cbn. rewrite orb_false_r. exact Hans.
  - cbn [app]. unfold created. cbn [omap list_omap]. rewrite omap_app.
    cbn [omap list_omap]. rewrite app_nil_r.
    constructor; [exact Hfresh|].
    eapply Forall_impl; [exact Hcr|]. cbn beta. intros q Hq.
    apply lookup_insert_None in Hq as [Hq _].
    by apply lookup_insert_None in Hq as [Hq _].
Qed.

Lemma open_in_editor_post (data : json) (w : World) :
  post (open_in_editor E data) w
       (loop_post (Some (EvCreate (new_temp w) (draft_of data))) w).
Proof. apply (open_in_editor_at_post (S (retry_limit E))). Qed.

End EditLoop.

Section EditSteps.

Context {codec : JsonCodec} (E : Env).

Ltac run_iteration Hed :=
  unfold editor_command, draft_of in Hed;
  cbn [open_in_editor_at];
  unfold bind, try_finally, try_except, lift, named_temporary_file,
    run_editor, read_file;
  world_simpl; rewrite lookup_insert_eq; cbv beta iota zeta; rewrite Hed;
  cbn [Z.eqb]; world_simpl; rewrite lookup_insert_eq.

Lemma open_in_editor_at_accepts (depth : nat) (data : json) (w : World)
    (content : string) (v : json) :
  editor E (editor_command E) (launches w) (draft_of data)
  = Exited 0 (Some content) ->
  json_loads content = Ret v ->
  fst (open_in_editor_at E (S depth) data w) = Ret v.
Proof.
  intros Hed Hv. run_iteration Hed. rewrite Hv.
  unfold ret, unlink. world_simpl. by rewrite lookup_insert_eq.
Qed.

(** The run of one iteration that ends without a prompt: the temporary
    file is created, shown to the editor and unlinked. *)
Lemma open_in_editor_at_refuses (depth : nat) (data : json) (w : World)
    (content : string) (e : exn) :
  editor E (editor_command E) (launches w) (draft_of data)
  = Exited 0 (Some content) ->
  json_loads content = Raise e ->
  is_JSONDecodeError e = false ->
  open_in_editor_at E (S depth) data w
  = (Raise e,
     log [EvCreate (new_temp w) (draft_of data);
          EvLaunch (editor_command E) (new_temp w); EvUnlink (new_temp w)]
         (set_launches (S (launches w)) w)).
Proof.
  intros Hed Hv He. pose proof (temp_bound_fresh (fs w)) as Hfresh.
  unfold editor_command, draft_of in *. run_iteration Hed.
  rewrite Hv, He. unfold unlink. world_simpl. rewrite lookup_insert_eq.
  unfold log, set_fs, set_launches, new_temp. cbn.
  rewrite !delete_insert_eq, delete_id by done. by rewrite <- !app_assoc.
Qed.

Lemma open_in_editor_at_aborts (depth : nat) (data : json) (w : World)
    (content a : string) (rest : list string) :
  editor E (editor_command E) (launches w) (draft_of data)
  = Exited 0 (Some content) ->
  not_json content ->
  stdin w = a :: rest ->
  answer_is_n a = true ->
  fst (open_in_editor_at E (S depth) data w) = Raise aborted.
Proof.
  intros Hed Hv Hin Ha. run_iteration Hed. unfold not_json in Hv.
  rewrite Hv. cbn [is_JSONDecodeError exn_message].
  unfold print, emit, input. world_simpl. rewrite Hin, Ha. cbn [negb].
  unfold raise, unlink. world_simpl. by rewrite lookup_insert_eq.
Qed.

Lemma open_in_editor_at_retries (depth : nat) (data original : json)
    (w : World) (content a : string) (rest : list string) :
  editor E (editor_command E) (launches w) (draft_of data)
  = Exited 0 (Some content) ->
  not_json content ->
  stdin w = a :: rest ->
  answer_is_n a = false ->
  json_loads (json_dumps false data) = Ret original ->
  open_in_editor_at E (S depth) data w
  = match open_in_editor_at E depth original
            (retry_world E data content a rest w) with
    | (r, w2) => (r, unlinked (new_temp w) w2)
    end.
Proof.
  intros Hed Hv Hin Ha Horig.
  pose proof (open_in_editor_at_post E depth original
                (retry_world E data content a rest w)) as Hpost.
  run_iteration Hed. unfold not_json in Hv.
  rewrite Hv. cbn [is_JSONDecodeError exn_message].
  unfold print, emit, input. world_simpl. rewrite Hin, Ha. cbn [negb].
  rewrite Horig.
  match goal with
  | |- context [open_in_editor_at E depth original ?w1] =>
      replace w1 with (retry_world E data content a rest w)
        by (unfold retry_world, new_temp, draft_of, editor_command, log,
              set_stdin, set_fs, set_launches; cbn;
            by rewrite <- !app_assoc)
  end.
  apply post_run in Hpost.
  destruct (open_in_editor_at E depth original
              (retry_world E data content a rest w)) as [r w2].
  destruct Hpost as [Hfs _]. cbn [fst snd retry_world fs] in Hfs.
  assert (fs w2 !! new_temp w = Some content) as Hp
    by (rewrite Hfs; apply lookup_insert_eq).
  unfold unlink. fold (new_temp w). by rewrite Hp.
Qed.

End EditSteps.

(** ** Events of the phases of [main] *)

Lemma writes_follow_confirm_true (evs : list event) :
  writes_follow_confirm true evs = true.
Proof. induction evs as [|[] rest IH]; cbn; done. Qed.

Lemma answered_cons (prompt : string) (no : bool) (e : event)
    (l : list event) :
  answered prompt no (e :: l)
  = answered prompt no [e] || answered prompt no l.
Proof. cbn. by rewrite orb_false_r. Qed.

Lemma writes_follow_confirm_app (c : bool) (l1 l2 : list event) :
  writes_follow_confirm c (l1 ++ l2)
  = writes_follow_confirm c l1
    && writes_follow_confirm (c || answered confirm_prompt false l1) l2.
Proof.
  revert c. induction l1 as [|e l1 IH]; intros c.
  - cbn. by rewrite orb_false_r.
  - rewrite (answered_cons _ _ e l1).
    destruct e; cbn [app writes_follow_confirm]; rewrite IH;
      rewrite ?orb_assoc; try reflexivity.
    cbn. by rewrite orb_false_r, andb_assoc.
Qed.

Lemma silent_answered (prompt : string) (no : bool) (evs : list event) :
  forallb (silent prompt) evs = true -> answered prompt no evs = false.
Proof.
  induction evs as [|e rest IH]; [done|]. cbn [forallb].
  intros [He Hrest]%andb_prop.
  rewrite answered_cons, (IH Hrest), orb_false_r.
  destruct e as [| p [a|] | | | | | |]; try done.
  cbn in *. by destruct (String.eqb p prompt).
Qed.

Lemma silent_writes (c : bool) (evs : list event) :
  forallb (silent confirm_prompt) evs = true ->
  writes_follow_confirm c evs = true.
Proof.
  revert c. induction evs as [|e rest IH]; intros c; [done|]. cbn [forallb].
  intros [He Hrest]%andb_prop.
  destruct e; try done; cbn [writes_follow_confirm];
    rewrite (silent_answered confirm_prompt false [_])
      by (apply andb_true_intro; by split);
    rewrite orb_false_r; by apply IH.
Qed.

Lemma prelude_silent (prompt : string) (evs : list event) :
  prompt <> input_prompt ->
  forallb prelude_event evs = true -> forallb (silent prompt) evs = true.
Proof.
  intros Hne Hall. apply forallb_forall. intros e He.
  rewrite forallb_forall in Hall. specialize (Hall e He).
  destruct e as [| p o | | | | | |]; try done. cbn in *.
  apply String.eqb_eq in Hall as ->.
  by destruct (String.eqb_spec input_prompt prompt) as [<-|].
Qed.

Lemma loop_silent (evs : list event) :
  forallb loop_event evs = true ->
  forallb (silent confirm_prompt) evs = true.
Proof.
  intros Hall. apply forallb_forall. intros e He.
  rewrite forallb_forall in Hall. specialize (Hall e He).
  destruct e as [| p o | | | | | |]; try done. cbn in *.
  by apply String.eqb_eq in Hall as ->.
Qed.

Lemma appender_answered (prompt : string) (no : bool) (evs : list event) :
  forallb appender_event evs = true -> answered prompt no evs = false.
Proof.
  induction evs as [|e rest IH]; [done|]. cbn [forallb].
  intros [He Hrest]%andb_prop. rewrite answered_cons, (IH Hrest).
  by destruct e.
Qed.

Lemma collect_lines_events (pending lines : list string) :
  forallb prelude_event (collect_lines pending lines).2 = true.
Proof.
  revert lines. induction pending as [|line rest IH]; intros lines; [done|].
  cbn [collect_lines]. destruct (String.eqb line EmptyString); [done|].
  specialize (IH (lines ++ [line])).
  by destruct (collect_lines rest (lines ++ [line])) as [[ls rest'] evs].
Qed.

(** ** Exceptions of the operations on values *)

Lemma getitem_exn (v : json) (k : string) (e : exn) :
  getitem v k = Raise e -> is_Exception e = true /\ e <> EOFError.
Proof.
  destruct v; cbn; try (by intros [= <-]).
  destruct (Dict.get k d); [done | by intros [= <-]].
Qed.

Lemma slugify_value_exn (v : json) (e : exn) :
  slugify_value v = Raise e -> e = AttributeError.
Proof. destruct v; cbn; by intros [= <-]. Qed.

Lemma setitem_exn (v x : json) (k : string) (e : exn) :
  setitem v k x = Raise e -> e = TypeError.
Proof. destruct v; cbn; by intros [= <-]. Qed.

Lemma strip_if_falsy_exn (v : json) (k : string) (e : exn) :
  strip_if_falsy v k = Raise e -> e = TypeError.
Proof.
  destruct v; cbn; try (by intros [= <-]).
  destruct (Dict.get k d) as [x|]; [by destruct (truthy x) | done].
Qed.

Lemma strip_each_exn (keys : list string) (v : json) (e : exn) :
  strip_each keys v = Raise e -> e = TypeError.
Proof.
  revert v. induction keys as [|k keys IH]; intros v; cbn; [done|].
  destruct (strip_if_falsy v k) as [v'|e'] eqn:Hk; [by apply IH|].
  intros [= <-]. by apply strip_if_falsy_exn in Hk.
Qed.

Lemma insert_front_exn (bits bit : json) (e : exn) :
  insert_front bits bit = Raise e -> e = AttributeError.
Proof. destruct bits; cbn; by intros [= <-]. Qed.

Section MainRun.

Context {codec : JsonCodec} (E : Env).

(** [add_bit] only writes the store, prints and rebuilds, and it ends
    neither by [SystemExit] nor by [EOFError]. *)
Lemma add_bit_post (bit : json) (w : World) :
  post (add_bit E bit) w
       (fun r w' => leaves_by_exit r = false
                    /\ exists evs, trace w' = trace w ++ evs
                                   /\ forallb appender_event evs = true).
Proof.
  assert (exists evs : list event,
             trace w = trace w ++ evs /\ forallb appender_event evs = true)
    as Hnil by (exists []; by rewrite app_nil_r).
  unfold post, add_bit, bind, lift, read_file, ret, raise.
  destruct (fs w !! BitsJson) as [text|]; [|by split].
  destruct (json_loads text) as [bits|e] eqn:H0.
  2:{ split; [|done]. apply json_loads_raises in H0. by destruct e. }
  destruct (getitem bit "title") as [title|e] eqn:H1.
  2:{ split; [|done]. apply getitem_exn in H1 as [? ?]. by destruct e. }
  destruct (slugify_value title) as [slug|e] eqn:H2.
  2:{ by apply slugify_value_exn in H2 as ->. }
  destruct (setitem bit "id" _) as [bit1|e] eqn:H3.
  2:{ by apply setitem_exn in H3 as ->. }
  destruct (setitem bit1 "date" _) as [bit2|e] eqn:H4.
  2:{ by apply setitem_exn in H4 as ->. }
  destruct (strip_each _ bit2) as [bit3|e] eqn:H5.
  2:{ by apply strip_each_exn in H5 as ->. }
  destruct (strip_if_falsy bit3 "tags") as [bit4|e] eqn:H6.
  2:{ by apply strip_if_falsy_exn in H6 as ->. }
  destruct (insert_front bits bit4) as [bits'|e] eqn:H7.
  2:{ by apply insert_front_exn in H7 as ->. }
  unfold write_file, print, emit, run_rebuild. world_simpl.
  destruct (getitem bit4 "title") as [title'|e] eqn:H8.
  2:{ split; [apply getitem_exn in H8 as [? ?]; by destruct e|].
      eexists; split; [reflexivity|done]. }
  destruct (rebuild_status E =? 0); world_simpl;
    (split; [done|]; eexists; split; [rewrite <- !app_assoc; reflexivity|done]).
Qed.

(** [add_bit] on a value without a readable title: an exception, and
    nothing is changed. With a readable store the exception is the one of
    [bit["title"]]. *)
Lemma add_bit_rejects (bit : json) (e : exn) (w : World) :
  getitem bit "title" = Raise e ->
  exists e', add_bit E bit w = (Raise e', w)
             /\ (forall text bits, fs w !! BitsJson = Some text ->
                                   json_loads text = Ret bits -> e' = e).
Proof.
  intros Hget. unfold add_bit, bind, lift, read_file, ret, raise.
  destruct (fs w !! BitsJson) as [text|];
    [|eexists; split; [reflexivity | discriminate]].
  destruct (json_loads text) as [bits|e0] eqn:Hloads;
    [|eexists; split; [reflexivity | intros ? ? [= <-]; congruence]].
  rewrite Hget. eexists. split; reflexivity || done.
Qed.

(** Splits [main_post] at the events emitted. *)
Ltac main_events :=
  eexists; split;
  [ world_simpl; rewrite <- ?app_assoc; reflexivity
  | rewrite ?answered_app, ?writes_follow_confirm_app ].

Lemma main_run (w : World) : post (main E) w (main_post w).
Proof.
  unfold main.
  apply post_bind. unfold when.
  destruct (String.eqb (environ_get E "ANTHROPIC_API_KEY" EmptyString)
                       EmptyString).
  { unfold post, bind, print, emit, sys_exit, raise.
    main_events. cbn. repeat split; done. }
  unfold post at 1, ret.
  apply post_bind. unfold post at 1, get_user_input.
  pose proof (collect_lines_events (stdin w) []) as Hev0.
  destruct (collect_lines (stdin w) []) as [[lines rest] evs0].
  cbn [snd] in Hev0.
  set (evsI := EvPrint "Enter your bit (empty line to finish):" :: evs0).
  assert (forallb prelude_event evsI = true) as HevI by exact Hev0.
  clearbody evsI. clear Hev0 evs0.
  assert (forall b, answered confirm_prompt b evsI = false) as HI1
    by (intros b; by apply silent_answered, prelude_silent).
  assert (forall b, answered reedit_prompt b evsI = false) as HI2
    by (intros b; by apply silent_answered, prelude_silent).
  assert (forall c, writes_follow_confirm c evsI = true) as HI3
    by (intros c; by apply silent_writes, prelude_silent).
  set (text := Str.join_lines lines).
  apply post_bind. unfold when.
  destruct (String.eqb (Str.strip text) EmptyString).
  { unfold post, bind, print, emit, sys_exit, raise.
    main_events. rewrite ?HI1, ?HI2, ?HI3. cbn. repeat split; done. }
  unfold post at 1, ret.
  apply post_bind. unfold post at 1, print, emit.
  apply post_bind. apply post_try_except.
  unfold structure_with_claude. apply post_bind. unfold post at 1, emit.
  destruct (api E (bit_request text)) as [msg|content].
  { unfold post, bind, print, emit, sys_exit, raise. cbn [is_Exception].
    main_events. rewrite ?HI1, ?HI2, ?HI3. cbn. repeat split; done. }
  destruct (first_tool_use content) as [bit|].
  2:{ unfold post, bind, print, emit, sys_exit, raise. cbn [is_Exception].
      main_events. rewrite ?HI1, ?HI2, ?HI3. cbn. repeat split; done. }
  unfold post at 1, ret.
  apply post_bind. unfold post at 1, print, emit.
  apply post_bind. eapply post_conseq; [apply open_in_editor_post|].
  intros r w2 (Hfs & evsL & Htr & _ & HevL & Hans & _).
  revert Hfs Htr. world_simpl. intros Hfs Htr.
  assert (forall b, answered confirm_prompt b evsL = false) as HL1
    by (intros b; by apply silent_answered, loop_silent).
  assert (forall c, writes_follow_confirm c evsL = true) as HL3
    by (intros c; by apply silent_writes, loop_silent).
  destruct r as [bit'|e].
  2:{ eexists. split; [rewrite Htr, <- ?app_assoc; reflexivity|].
      rewrite ?answered_app, ?writes_follow_confirm_app.
      rewrite ?HI1, ?HI2, ?HI3, ?HL1, ?HL3. cbn. repeat split; try done.
      intros H. by injection (Hans H) as ->. }
  assert (answered reedit_prompt true evsL = false) as HL2.
  { destruct (answered reedit_prompt true evsL); [|done].
    by specialize (Hans eq_refl). }
  clear Hans.
  apply post_bind. unfold post at 1, print, emit.
  apply post_bind. unfold post at 1, print, emit.
  apply post_bind. unfold post at 1, input. world_simpl.
  destruct (stdin w2) as [|a rest2].
  { eexists. split; [world_simpl; rewrite Htr, <- ?app_assoc; reflexivity|].
    rewrite ?answered_app, ?writes_follow_confirm_app.
    rewrite ?HI1, ?HI2, ?HI3, ?HL1, ?HL2, ?HL3. cbn. repeat split; done. }
  apply post_bind. unfold when.
  destruct (answer_is_n a) eqn:Ha.
  { unfold post, bind, print, emit, sys_exit, raise.
    eexists. split; [world_simpl; rewrite Htr, <- ?app_assoc; reflexivity|].
    rewrite ?answered_app, ?writes_follow_confirm_app.
    rewrite ?HI1, ?HI2, ?HI3, ?HL1, ?HL2, ?HL3. cbn. rewrite ?Ha. cbn.
    repeat split; done. }
  unfold post at 1, ret.
  eapply post_conseq; [apply add_bit_post|].
  intros r w4 (Hexit & evsA & HtrA & HevA).
  revert HtrA. world_simpl. intros HtrA.
  eexists. split; [rewrite HtrA, Htr, <- ?app_assoc; reflexivity|].
  rewrite ?answered_app, ?writes_follow_confirm_app.
  rewrite ?HI1, ?HI2, ?HI3, ?HL1, ?HL2, ?HL3.
  rewrite !(appender_answered _ _ evsA) by done.
  cbn. rewrite ?Ha. cbn. rewrite writes_follow_confirm_true.
  repeat split; done.
Qed.


End MainRun.

(** ** Results on the edit loop *)

Section EditLoopResults.

Context {codec : JsonCodec} (E : Env).

(** C1, amended. When the editor exits normally and leaves [content] in
    the temporary file: if [json.loads] returns a value for [content],
    [open_in_editor] returns exactly that value; if [json.loads] raises
    another exception than [JSONDecodeError], as it does for a JSON text
    with an integer of more than 4300 digits, that exception leaves the
    loop, which has asked nothing; if [content] is no JSON and the user
    answers "n" to the re-edit prompt, the loop ends with the abort and
    returns no value; if the user accepts, the run continues as the nested
    call on [original], the structuring output serialised and parsed again,
    in the world [retry_world]: where the recursion limit leaves room for
    that call, the first thing it does is to write the serialisation of
    [original], not [content], to a new file, and where it does not, the
    call raises [RecursionError]. *)
Theorem edit_loop_outcomes (data : json) (w : World) (content : string) :
  editor E (editor_command E) (launches w) (draft_of data)
  = Exited 0 (Some content) ->
  (forall v, json_loads content = Ret v ->
             fst (open_in_editor E data w) = Ret v)
  /\ (forall e, json_loads content = Raise e ->
                is_JSONDecodeError e = false ->
                fst (open_in_editor E data w) = Raise e
                /\ emitted w (snd (open_in_editor E data w))
                   = [EvCreate (new_temp w) (draft_of data);
                      EvLaunch (editor_command E) (new_temp w);
                      EvUnlink (new_temp w)])
  /\ (forall a rest,
        not_json content -> stdin w = a :: rest ->
        answer_is_n a = true ->
        fst (open_in_editor E data w) = Raise aborted)
  /\ (forall a rest original,
        not_json content -> stdin w = a :: rest ->
        answer_is_n a = false ->
        json_loads (json_dumps false data) = Ret original ->
        let w1 := retry_world E data content a rest w in
        let nested := open_in_editor_at E (retry_limit E) original w1 in
        open_in_editor E data w
        = (fst nested, unlinked (new_temp w) (snd nested))
        /\ (retry_limit E = O -> nested = (Raise RecursionError, w1))
        /\ (retry_limit E <> O ->
            exists evs,
              trace (snd nested)
              = trace w1
                ++ EvCreate (new_temp w1) (draft_of original) :: evs)).
Proof.
  intros Hed. split; [|split; [|split]].
  - intros v Hv. by apply open_in_editor_at_accepts with content.
  - intros e Hv He. unfold open_in_editor.
    rewrite (open_in_editor_at_refuses E _ data w content e Hed Hv He).
    split; [done|]. by apply emitted_app.
  - intros a rest Hv Hin Ha.
    by apply open_in_editor_at_aborts with content a rest.
  - intros a rest original Hv Hin Ha Horig w1 nested. split; [|split].
    + unfold open_in_editor.
      rewrite (open_in_editor_at_retries E _ data original w content a rest)
        by done.
      fold w1. fold nested. by destruct nested.
    + unfold nested. by intros ->.
    + intros Hroom. unfold nested.
      pose proof (open_in_editor_at_post E (retry_limit E) original w1)
        as Hpost.
      apply post_run in Hpost as [_ (evs & Htr & Hhead & _)].
      destruct (retry_limit E) as [|n]; [done|]. cbn in Hhead.
      destruct evs as [|e evs]; [done|]. injection Hhead as ->.
      by exists evs.
Qed.


End EditLoopResults.

(** A run that accepts the draft, a run on a text that [json.loads]
    refuses, a run with a declined re-edit and the nested call of a run
    with one retry. *)
Lemma edit_loop_outcomes_witness :
  fst (open_in_editor (codec := mini_codec)
         (sample_env keep_editor sample_reply) sample_bit (sample_world []))
  = Ret sample_bit
  /\ fst (open_in_editor (codec := mini_codec)
            (sample_env number_editor sample_reply) sample_bit
            (sample_world ["y"]))
     = Raise (ValueError (MiniJson.digits_message 4301))
  /\ fst (open_in_editor (codec := mini_codec)
            (sample_env clumsy_editor sample_reply) sample_bit
            (sample_world ["n"]))
     = Raise aborted
  /\ exists evs,
       trace (snd (open_in_editor_at (codec := mini_codec)
                     (sample_env clumsy_editor sample_reply) 990 sample_bit
                     (retry_world (codec := mini_codec)
                        (sample_env clumsy_editor sample_reply) sample_bit
                        "{ broken" "y" [] (sample_world ["y"]))))
       = trace (retry_world (codec := mini_codec)
                  (sample_env clumsy_editor sample_reply) sample_bit
                  "{ broken" "y" [] (sample_world ["y"]))
         ++ EvCreate (TempFile 1) (draft_of (codec := mini_codec) sample_bit)
            :: evs.
Proof.
  split; [|split; [|split]].
  - apply (proj1 (edit_loop_outcomes (codec := mini_codec)
                    (sample_env keep_editor sample_reply) sample_bit
                    (sample_world [])
                    (draft_of (codec := mini_codec) sample_bit) eq_refl)).
    vm_compute. reflexivity.
  - apply (proj1 (proj2 (edit_loop_outcomes (codec := mini_codec)
                    (sample_env number_editor sample_reply) sample_bit
                    (sample_world ["y"]) huge_number eq_refl)));
      vm_compute; reflexivity.
  - apply (proj1 (proj2 (proj2 (edit_loop_outcomes (codec := mini_codec)
                    (sample_env clumsy_editor sample_reply) sample_bit
                    (sample_world ["n"]) "{ broken" eq_refl))) "n" []);
      vm_compute; reflexivity.
  - apply (proj2 (proj2 (proj2 (edit_loop_outcomes (codec := mini_codec)
                    (sample_env clumsy_editor sample_reply) sample_bit
                    (sample_world ["y"]) "{ broken" eq_refl)))
             "y" [] sample_bit);
      vm_compute; (reflexivity || discriminate).
Defined.

(** C1 as stated fails: a text of 4301 digits is a JSON integer, yet
    [json.loads] raises [ValueError] on it, which the loop does not catch:
    no value is returned and nothing is asked. *)
Lemma valid_rewrite_is_refused :
  is_json_integer huge_number = true
  /\ fst (open_in_editor (codec := mini_codec)
            (sample_env number_editor sample_reply) sample_bit
            (sample_world ["y"]))
     = Raise (ValueError (MiniJson.digits_message 4301))
  /\ (forall v, fst (open_in_editor (codec := mini_codec)
                       (sample_env number_editor sample_reply) sample_bit
                       (sample_world ["y"])) <> Ret v)
  /\ emitted (sample_world ["y"])
       (snd (open_in_editor (codec := mini_codec)
               (sample_env number_editor sample_reply) sample_bit
               (sample_world ["y"])))
     = [EvCreate (TempFile 0) (draft_of (codec := mini_codec) sample_bit);
        EvLaunch "ed" (TempFile 0); EvUnlink (TempFile 0)].
Proof.
  split; [vm_compute; reflexivity|].
  split; [vm_compute; reflexivity|].
  split; [intros v; vm_compute; discriminate|].
  vm_compute. reflexivity.
Qed.



(** ** Results on the whole program *)

Section MainResults.

Context {codec : JsonCodec} (E : Env).

Lemma main_missing_key (w : World) :
  String.eqb (environ_get E "ANTHROPIC_API_KEY" EmptyString) EmptyString
  = true ->
  fst (main E w) = Raise (SystemExit (ExitCode 1)).
Proof. intros Hkey. unfold main, bind, when. by rewrite Hkey. Qed.

Lemma main_structuring_failure (w : World) :
  String.eqb (environ_get E "ANTHROPIC_API_KEY" EmptyString) EmptyString
  = false ->
  String.eqb (Str.strip (user_text w)) EmptyString = false ->
  structured (api E (bit_request (user_text w))) = None ->
  fst (main E w) = Raise (SystemExit (ExitCode 1)).
Proof.
  unfold user_text, structured. intros Hkey Htext Hapi.
  unfold main, bind, when, get_user_input. rewrite Hkey. cbn [ret].
  destruct (collect_lines (stdin w) []) as [[lines rest] evs0].
  cbn [fst] in *. rewrite Htext.
  unfold try_except, structure_with_claude, bind, print, emit.
  destruct (api E (bit_request (Str.join_lines lines))) as [msg|content];
    [done|]. by rewrite Hapi.
Qed.

(** C3. A run of [main] in which the final prompt did not receive an
    answer other than "n" leaves every file, the store among them, as it
    was. This covers every run that ends by [sys.exit], by the abort of the
    edit loop or at the end of stdin, and in every run each write of a file
    comes after such an answer. *)
Theorem store_written_only_after_confirmation (w : World) :
  let r := fst (main E w) in
  let w' := snd (main E w) in
  (answered confirm_prompt false (emitted w w') = false -> fs w' = fs w)
  /\ (leaves_by_exit r = true -> fs w' = fs w)
  /\ writes_follow_confirm false (emitted w w') = true.
Proof.
  intros r w'. pose proof (main_run E w) as Hrun.
  apply post_run in Hrun as (evs & Htr & Hfs & Hwr & _ & _ & Hexit).
  fold r in Hexit. fold w' in Htr, Hfs.
  rewrite (emitted_app _ _ _ Htr). repeat split; [done| |done].
  intros Hr. apply Hfs.
  destruct (answered confirm_prompt false evs); [|done].
  specialize (Hexit eq_refl). congruence.
Qed.

(** C8, amended. Declining at the final prompt ends the run by
    [sys.exit(0)], with status 0. Declining to re-edit ends it by
    [SystemExit("Aborted")], for which the interpreter exits with status 1,
    the status also of a missing API key, of a structuring failure and of
    every exception that reaches the top. *)
Theorem abort_exit_statuses (w : World) :
  let r := fst (main E w) in
  let evs := emitted w (snd (main E w)) in
  (answered confirm_prompt true evs = true ->
   r = Raise (SystemExit (ExitCode 0)) /\ exit_status r = 0)
  /\ (answered reedit_prompt true evs = true ->
      r = Raise aborted /\ exit_status r = 1)
  /\ (String.eqb (environ_get E "ANTHROPIC_API_KEY" EmptyString) EmptyString
      = true -> exit_status r = 1)
  /\ (String.eqb (environ_get E "ANTHROPIC_API_KEY" EmptyString) EmptyString
      = false ->
      String.eqb (Str.strip (user_text w)) EmptyString = false ->
      structured (api E (bit_request (user_text w))) = None ->
      exit_status r = 1)
  /\ (forall e, is_Exception e = true -> exit_status (@Raise unit e) = 1).
Proof.
  intros r evs. pose proof (main_run E w) as Hrun.
  apply post_run in Hrun as (evs' & Htr & _ & _ & Hno & Hab & _).
  fold r in Hno, Hab.
  assert (evs = evs') as -> by (by apply emitted_app).
  repeat split.
  - by apply Hno.
  - by rewrite Hno.
  - by apply Hab.
  - by rewrite Hab.
  - intros Hkey. unfold r. by rewrite main_missing_key.
  - intros Hkey Htext Hapi. unfold r. by rewrite main_structuring_failure.
  - intros e He. by destruct e.
Qed.

(** C9, amended. [structure_with_claude] returns, as it is, the input of
    the first [tool_use] block of the reply, raises [ValueError] when the
    reply has none and passes the failure of the API call on: the value
    returned has a non-empty title exactly when the payload has one. *)
Theorem structure_returns_payload (text : string) (w : World) :
  fst (structure_with_claude E text w)
  = match api E (bit_request text) with
    | ApiFailure msg => Raise (APIError msg)
    | ApiMessage content =>
        match first_tool_use content with
        | Some input => Ret input
        | None => Raise (ValueError "Claude didn't return structured output")
        end
    end.
Proof.
  unfold structure_with_claude, bind, emit.
  destruct (api E (bit_request text)) as [msg|content]; [done|].
  by destruct (first_tool_use content).
Qed.

End MainResults.

(** The five early ends of a run leave the files as they were. *)
Lemma store_written_only_after_confirmation_witness :
  fs (snd blank_run) = fs (sample_world [" "; EmptyString])
  /\ fs (snd failed_api_run) = fs (sample_world ["a new bit"; EmptyString])
  /\ fs (snd failed_editor_run) = fs (sample_world ["a new bit"; EmptyString])
  /\ fs (snd declined_reedit_run)
     = fs (sample_world ["a new bit"; EmptyString; "n"])
  /\ fs (snd declined_confirm_run)
     = fs (sample_world ["a new bit"; EmptyString; " N "]).
Proof.
  split; [|split; [|split; [|split]]].
  - apply (proj1 (store_written_only_after_confirmation (codec := mini_codec)
                    (sample_env keep_editor sample_reply)
                    (sample_world [" "; EmptyString]))).
    vm_compute. reflexivity.
  - apply (proj1 (store_written_only_after_confirmation (codec := mini_codec)
                    (sample_env keep_editor (ApiFailure "Overloaded"))
                    (sample_world ["a new bit"; EmptyString]))).
    vm_compute. reflexivity.
  - apply (proj1 (store_written_only_after_confirmation (codec := mini_codec)
                    (sample_env failing_editor sample_reply)
                    (sample_world ["a new bit"; EmptyString]))).
    vm_compute. reflexivity.
  - apply (proj1 (store_written_only_after_confirmation (codec := mini_codec)
                    (sample_env clumsy_editor sample_reply)
                    (sample_world ["a new bit"; EmptyString; "n"]))).
    vm_compute. reflexivity.
  - apply (proj1 (store_written_only_after_confirmation (codec := mini_codec)
                    (sample_env keep_editor sample_reply)
                    (sample_world ["a new bit"; EmptyString; " N "]))).
    vm_compute. reflexivity.
Defined.

(** The exit statuses of five runs. *)
Lemma abort_exit_statuses_witness :
  (fst declined_confirm_run = Raise (SystemExit (ExitCode 0))
   /\ exit_status (fst declined_confirm_run) = 0)
  /\ (fst declined_reedit_run = Raise aborted
      /\ exit_status (fst declined_reedit_run) = 1)
  /\ exit_status (fst (main (codec := mini_codec) keyless_env
                         (sample_world ["a new bit"; EmptyString]))) = 1
  /\ exit_status (fst failed_api_run) = 1
  /\ exit_status (fst failed_editor_run) = 1.
Proof.
  split; [split|split; [split|split; [|split]]].
  - apply (proj1 (abort_exit_statuses (codec := mini_codec)
                    (sample_env keep_editor sample_reply)
                    (sample_world ["a new bit"; EmptyString; " N "]))).
    vm_compute. reflexivity.
  - apply (proj1 (abort_exit_statuses (codec := mini_codec)
                    (sample_env keep_editor sample_reply)
                    (sample_world ["a new bit"; EmptyString; " N "]))).
    vm_compute. reflexivity.
  - apply (proj1 (proj2 (abort_exit_statuses (codec := mini_codec)
                    (sample_env clumsy_editor sample_reply)
                    (sample_world ["a new bit"; EmptyString; "n"])))).
    vm_compute. reflexivity.
  - apply (proj1 (proj2 (abort_exit_statuses (codec := mini_codec)
                    (sample_env clumsy_editor sample_reply)
                    (sample_world ["a new bit"; EmptyString; "n"])))).
    vm_compute. reflexivity.
  - apply (proj1 (proj2 (proj2 (abort_exit_statuses (codec := mini_codec)
                    keyless_env (sample_world ["a new bit"; EmptyString]))))).
    vm_compute. reflexivity.
  - apply (proj1 (proj2 (proj2 (proj2 (abort_exit_statuses
                    (codec := mini_codec)
                    (sample_env keep_editor (ApiFailure "Overloaded"))
                    (sample_world ["a new bit"; EmptyString])))))).
    all: vm_compute; reflexivity.
  - replace (fst failed_editor_run) with (@Raise unit (CalledProcessError 1))
      by (vm_compute; reflexivity).
    apply (proj2 (proj2 (proj2 (proj2 (abort_exit_statuses
                    (codec := mini_codec)
                    (sample_env failing_editor sample_reply)
                    (sample_world ["a new bit"; EmptyString])))))).
    reflexivity.
Defined.

(** C8 as stated fails: the user who answers "n" to the re-edit prompt ends
    the run by [SystemExit("Aborted")], and the exit status is 1, not 0. *)
Lemma declined_reedit_exits_with_1 :
  answered reedit_prompt true
    (emitted (sample_world ["a new bit"; EmptyString; "n"])
             (snd declined_reedit_run)) = true
  /\ fst declined_reedit_run = Raise (SystemExit (ExitMessage "Aborted"))
  /\ exit_status (fst declined_reedit_run) = 1
  /\ exit_status (fst declined_reedit_run) <> 0.
Proof. repeat split; vm_compute; congruence. Qed.

(** C9 as stated fails: on a non-empty text the API may answer with a
    payload whose title is empty, and [structure_with_claude] returns
    it. *)
Lemma structured_title_can_be_empty :
  String.eqb "a new bit" EmptyString = false
  /\ fst (structure_with_claude (sample_env keep_editor untitled_reply)
            "a new bit" (sample_world []))
     = Ret (JDict [("title", JStr EmptyString)])
  /\ has_nonempty_title (JDict [("title", JStr EmptyString)]) = false.
Proof. repeat split; vm_compute; reflexivity. Qed.

(** ** Results on the store appender *)

Lemma get_after_derived (key : string) (id date : json)
    (d : list (string * json)) :
  key ∈ stripped_keys ->
  Dict.get key (Dict.set "date" date (Dict.set "id" id d)) = Dict.get key d.
Proof.
  unfold stripped_keys. rewrite !elem_of_cons, elem_of_nil.
  intros [->|[->|[->|[->|[]]]]]; by rewrite !get_set_ne.
Qed.

Lemma add_bit_store {codec : JsonCodec} (E : Env) (d : list (string * json))
    (title text : string) (olds : list json) (w : World) :
  fs w !! BitsJson = Some text ->
  json_loads text = Ret (JList olds) ->
  Dict.get "title" d = Some (JStr title) ->
  fs (snd (add_bit E (JDict d) w)) !! BitsJson
  = Some (store_text (JDict (persisted_record E title d) :: olds)).
Proof.
  intros Hfs Hloads Htitle.
  destruct (add_bit_run E d title text olds w Hfs Hloads Htitle)
    as (w' & evs & -> & Hfs' & _).
  cbn [snd]. rewrite Hfs'. apply lookup_insert_eq.
Qed.

Section StoreResults.

Context {codec : JsonCodec} (E : Env).

(** C5. For a mapping with a string title and a store that holds a list,
    [add_bit] persists the record [persisted_record]: of the keys [url],
    [content], [via] and [tags], each one present with a false value is
    absent from it; in particular an empty [url] and an empty [tags] both
    go. The program's stripping steps are [strip_empty], and stripping
    twice changes nothing more. *)
Theorem add_bit_strips_empty_fields (d : list (string * json))
    (title text : string) (olds : list json) (w : World) :
  fs w !! BitsJson = Some text ->
  json_loads text = Ret (JList olds) ->
  Dict.get "title" d = Some (JStr title) ->
  let record := persisted_record E title d in
  fs (snd (add_bit E (JDict d) w)) !! BitsJson
  = Some (store_text (JDict record :: olds))
  /\ (forall key v, key ∈ stripped_keys -> Dict.get key d = Some v ->
                    truthy v = false -> Dict.get key record = None)
  /\ (Dict.get "url" d = Some (JStr EmptyString) ->
      Dict.get "tags" d = Some (JList []) ->
      Dict.get "url" record = None /\ Dict.get "tags" record = None)
  /\ (forall d', match strip_each ["url"; "content"; "via"] (JDict d') with
                 | Ret bit => strip_if_falsy bit "tags"
                 | Raise e => Raise e
                 end = Ret (JDict (strip_empty d'))
                 /\ strip_empty (strip_empty d') = strip_empty d').
Proof.
  intros Hfs Hloads Htitle record.
  assert (forall key v, key ∈ stripped_keys -> Dict.get key d = Some v ->
                        truthy v = false -> Dict.get key record = None)
    as Hstrip.
  { intros key v Hkey Hget Hv. unfold record, persisted_record.
    apply (strip_empty_falsy key v); [done| |done].
    by rewrite get_after_derived. }
  split; [by apply (add_bit_store E) with text|].
  split; [exact Hstrip|]. split.
  - intros Hurl Htags. split.
    + apply (Hstrip "url" (JStr EmptyString)); [|done..].
      unfold stripped_keys. set_solver.
    + apply (Hstrip "tags" (JList [])); [|done..].
      unfold stripped_keys. set_solver.
  - intros d'. split; [|apply strip_empty_idempotent].
    unfold strip_each. by rewrite !strip_if_falsy_dict.
Qed.

(** C6. [add_bit] writes back the list it read with the new record in
    front: the records already there follow it, as they were and in their
    order. Appending [d1] and then [d2], under a codec that reads back the
    store text of the first append, leaves the second record before the
    first. *)
Theorem add_bit_prepends (E' : Env) (d1 d2 : list (string * json))
    (t1 t2 text : string) (olds : list json) (w : World) :
  fs w !! BitsJson = Some text ->
  json_loads text = Ret (JList olds) ->
  Dict.get "title" d1 = Some (JStr t1) ->
  Dict.get "title" d2 = Some (JStr t2) ->
  let b1 := JDict (persisted_record E t1 d1) in
  let b2 := JDict (persisted_record E' t2 d2) in
  let w1 := snd (add_bit E (JDict d1) w) in
  let w2 := snd (add_bit E' (JDict d2) w1) in
  json_loads (store_text (b1 :: olds)) = Ret (JList (b1 :: olds)) ->
  fs w1 !! BitsJson = Some (store_text (b1 :: olds))
  /\ fs w2 !! BitsJson = Some (store_text (b2 :: b1 :: olds)).
Proof.
  intros Hfs Hloads Ht1 Ht2 b1 b2 w1 w2 Hback.
  assert (fs w1 !! BitsJson = Some (store_text (b1 :: olds))) as Hfs1
    by (by apply (add_bit_store E) with text).
  split; [exact Hfs1|].
  by apply (add_bit_store E' d2 t2 (store_text (b1 :: olds)) (b1 :: olds) w1).
Qed.


(** C10, amended. The edit loop checks nothing about the value: whatever
    value [json.loads] returns for the edited text, [open_in_editor]
    returns it, also when it is no mapping or has no [title]; a text on
    which [json.loads] raises another exception than [JSONDecodeError], as
    it does on a JSON integer of more than 4300 digits, is not accepted:
    that exception leaves the loop. [add_bit] on a value [v] whose
    [v["title"]] raises does raise and changes nothing, the store file
    included; with a readable store the exception is that of
    [bit["title"]]: [TypeError] for a list, [None] or a number, [KeyError]
    for a mapping without the key. *)
Theorem unvalidated_edit_fails_before_write (data : json) (w : World)
    (content : string) :
  editor E (editor_command E) (launches w) (draft_of data)
  = Exited 0 (Some content) ->
  (forall v, json_loads content = Ret v ->
             fst (open_in_editor E data w) = Ret v)
  /\ (forall e, json_loads content = Raise e ->
                is_JSONDecodeError e = false ->
                fst (open_in_editor E data w) = Raise e)
  /\ (forall v e w0,
        getitem v "title" = Raise e ->
        exists e',
          add_bit E v w0 = (Raise e', w0)
          /\ (forall text bits, fs w0 !! BitsJson = Some text ->
                                json_loads text = Ret bits -> e' = e))
  /\ getitem (JList []) "title" = Raise TypeError
  /\ getitem JNull "title" = Raise TypeError
  /\ getitem (JInt 42) "title" = Raise TypeError
  /\ getitem (JDict [("url", JStr "http://x")]) "title"
     = Raise (KeyError "title").
Proof.
  intros Hed. split; [|split; [|split; [|done]]].
  - intros v Hv. by apply open_in_editor_at_accepts with content.
  - intros e Hv He. unfold open_in_editor.
    by rewrite (open_in_editor_at_refuses E _ data w content e Hed Hv He).
  - intros v e w0 Hget. by apply add_bit_rejects.
Qed.

End StoreResults.

(** [add_bit] on [sparse_bit] and an empty store. *)
Lemma add_bit_strips_empty_fields_witness :
  fs (snd (add_bit (codec := mini_codec)
             (sample_env keep_editor sample_reply) (JDict sparse_bit)
             (sample_world []))) !! BitsJson
  = Some (store_text (codec := mini_codec) [sparse_record])
  /\ Dict.get "url"
       (persisted_record (sample_env keep_editor sample_reply) "Example"
          sparse_bit) = None
  /\ Dict.get "tags"
       (persisted_record (sample_env keep_editor sample_reply) "Example"
          sparse_bit) = None.
Proof.
  pose proof (add_bit_strips_empty_fields (codec := mini_codec)
                (sample_env keep_editor sample_reply) sparse_bit "Example"
                "[]" [] (sample_world []) eq_refl eq_refl eq_refl)
    as (Hstore & _ & Hgone & _).
  split; [exact Hstore | exact (Hgone eq_refl eq_refl)].
Defined.

(** Two appends to an empty store. *)
Lemma add_bit_prepends_witness :
  fs (snd (add_bit (codec := mini_codec) keyless_env (JDict second_bit)
             (snd (add_bit (codec := mini_codec)
                     (sample_env keep_editor sample_reply) (JDict sparse_bit)
                     (sample_world []))))) !! BitsJson
  = Some (store_text (codec := mini_codec) [second_record; sparse_record]).
Proof.
  exact (proj2 (add_bit_prepends (codec := mini_codec)
                  (sample_env keep_editor sample_reply) keyless_env
                  sparse_bit second_bit "Example" "Second one" "[]" []
                  (sample_world []) eq_refl eq_refl eq_refl eq_refl eq_refl)).
Defined.


(** The edit of [sample_bit] into an empty list, and into a number of
    4301 digits. *)
Lemma unvalidated_edit_fails_before_write_witness :
  fst (open_in_editor (codec := mini_codec)
         (sample_env list_editor sample_reply) sample_bit (sample_world []))
  = Ret (JList [])
  /\ add_bit (codec := mini_codec) (sample_env list_editor sample_reply)
       (JList []) (sample_world [])
     = (Raise TypeError, sample_world [])
  /\ fst (open_in_editor (codec := mini_codec)
            (sample_env number_editor sample_reply) sample_bit
            (sample_world []))
     = Raise (ValueError (MiniJson.digits_message 4301)).
Proof.
  pose proof (unvalidated_edit_fails_before_write (codec := mini_codec)
                (sample_env list_editor sample_reply) sample_bit
                (sample_world []) "[]" eq_refl)
    as (Hret & _ & Hadd & _).
  split; [exact (Hret (JList []) eq_refl)|]. split.
  - destruct (Hadd (JList []) TypeError (sample_world []) eq_refl)
      as (e' & -> & He').
    by rewrite (He' "[]" (JList []) eq_refl eq_refl).
  - apply (proj1 (proj2 (unvalidated_edit_fails_before_write
                           (codec := mini_codec)
                           (sample_env number_editor sample_reply) sample_bit
                           (sample_world []) huge_number eq_refl)));
      vm_compute; reflexivity.
Defined.

(** C10 as stated fails: a number of 4301 digits is a JSON value, yet the
    edit loop does not accept it: [json.loads] raises [ValueError] on it,
    the run of [main] ends there with status 1, and the final prompt is
    never reached. *)
Lemma huge_number_is_not_accepted :
  is_json_integer huge_number = true
  /\ fst huge_number_run = Raise (ValueError (MiniJson.digits_message 4301))
  /\ exit_status (fst huge_number_run) = 1
  /\ stdin (snd huge_number_run) = ["y"]
  /\ fs (snd huge_number_run)
     = fs (sample_world ["a new bit"; EmptyString; "y"]).
Proof. repeat split; vm_compute; reflexivity. Qed.

(** * Further properties *)

(** ** The input collector *)

Lemma collect_lines_blank (pre post acc : list string) :
  Forall (fun l => l <> EmptyString) pre ->
  collect_lines (pre ++ EmptyString :: post) acc
  = (acc ++ pre, post, prompts pre ++ [EvInput input_prompt (Some EmptyString)]).
Proof.
  revert acc. induction pre as [|l pre IH]; intros acc Hpre.
  - cbn. by rewrite app_nil_r.
  - apply Forall_cons in Hpre as [Hl Hpre]. cbn [app collect_lines].
    apply String.eqb_neq in Hl as ->.
    rewrite (IH (acc ++ [l]) Hpre). by rewrite <- app_assoc.
Qed.

Lemma collect_lines_eof (pre acc : list string) :
  Forall (fun l => l <> EmptyString) pre ->
  collect_lines pre acc
  = (acc ++ pre, [], prompts pre ++ [EvInput input_prompt None]).
Proof.
  revert acc. induction pre as [|l pre IH]; intros acc Hpre.
  - cbn. by rewrite app_nil_r.
  - apply Forall_cons in Hpre as [Hl Hpre]. cbn [app collect_lines].
    apply String.eqb_neq in Hl as ->.
    rewrite (IH (acc ++ [l]) Hpre). by rewrite <- app_assoc.
Qed.

(** X1. When stdin holds the non-empty lines [pre], then an empty line,
    then [post], [get_user_input] prints its banner, prompts once for each
    line of [pre] and once for the empty line, returns the lines of [pre]
    joined by newlines, and leaves [post] unread. *)
Theorem get_user_input_until_blank (pre post : list string) (w : World) :
  stdin w = pre ++ EmptyString :: post ->
  Forall (fun l => l <> EmptyString) pre ->
  get_user_input w
  = (Ret (Str.join_lines pre),
     log (EvPrint "Enter your bit (empty line to finish):"
          :: prompts pre ++ [EvInput input_prompt (Some EmptyString)])
         (set_stdin post w)).
Proof.
  intros Hin Hpre. unfold get_user_input.
  by rewrite Hin, (collect_lines_blank pre post [] Hpre).
Qed.

(** Two lines, the empty line, and one line left for the final prompt. *)
Lemma get_user_input_until_blank_witness :
  get_user_input
    (sample_world ["a new bit"; "second line"; EmptyString; "y"])
  = (Ret (Str.join_lines ["a new bit"; "second line"]),
     log [EvPrint "Enter your bit (empty line to finish):";
          EvInput input_prompt (Some "a new bit");
          EvInput input_prompt (Some "second line");
          EvInput input_prompt (Some EmptyString)]
         (set_stdin ["y"]
            (sample_world ["a new bit"; "second line"; EmptyString; "y"]))).
Proof.
  refine (get_user_input_until_blank ["a new bit"; "second line"] ["y"]
            (sample_world ["a new bit"; "second line"; EmptyString; "y"])
            eq_refl _).
  repeat constructor; discriminate.
Defined.

(** X2. When stdin ends before an empty line comes, [get_user_input]
    catches the [EOFError] of [input]: it returns the lines read so far,
    joined by newlines, and stdin is exhausted. *)
Theorem get_user_input_at_eof (w : World) :
  Forall (fun l => l <> EmptyString) (stdin w) ->
  get_user_input w
  = (Ret (Str.join_lines (stdin w)),
     log (EvPrint "Enter your bit (empty line to finish):"
          :: prompts (stdin w) ++ [EvInput input_prompt None])
         (set_stdin [] w)).
Proof.
  intros Hpre. unfold get_user_input.
  by rewrite (collect_lines_eof (stdin w) [] Hpre).
Qed.

(** One line and the end of stdin. *)
Lemma get_user_input_at_eof_witness :
  get_user_input (sample_world ["a new bit"])
  = (Ret "a new bit",
     log [EvPrint "Enter your bit (empty line to finish):";
          EvInput input_prompt (Some "a new bit");
          EvInput input_prompt None]
         (set_stdin [] (sample_world ["a new bit"]))).
Proof.
  refine (get_user_input_at_eof (sample_world ["a new bit"]) _).
  repeat constructor; discriminate.
Defined.

Lemma lstrip_chars_nil (l : list ascii) :
  Str.lstrip_chars l = [] <-> Forall (fun c => Str.is_space c = true) l.
Proof.
  induction l as [|c r IH]; cbn; [by split|].
  destruct (Str.is_space c) eqn:Hc.
  - rewrite IH. split; [by constructor | by intros [_ ?]%Forall_cons].
  - split; [done | intros [? _]%Forall_cons; congruence].
Qed.

Lemma lstrip_chars_suffix (l : list ascii) : Str.lstrip_chars l `suffix_of` l.
Proof.
  induction l as [|c r IH]; cbn; [done|].
  destruct (Str.is_space c); [by apply suffix_cons_r | done].
Qed.

Lemma lstrip_chars_head (l : list ascii) (c : ascii) (r : list ascii) :
  Str.lstrip_chars l = c :: r -> Str.is_space c = false.
Proof.
  induction l as [|c0 l IH]; cbn; [done|].
  destruct (Str.is_space c0) eqn:Hc; [done|]. by intros [= <- _].
Qed.

Lemma strip_empty_iff (s : string) :
  Str.strip s = EmptyString <-> is_blank s.
Proof.
  unfold Str.strip, is_blank. set (l := Str.chars s).
  rewrite <- lstrip_chars_nil. split.
  - intros H. apply (f_equal Str.chars) in H. rewrite chars_of_chars in H.
    change (Str.chars EmptyString) with (@nil ascii) in H.
    apply (f_equal (@rev ascii)) in H. rewrite rev_involutive in H. cbn in H.
    apply lstrip_chars_nil in H.
    destruct (Str.lstrip_chars l) as [|c r] eqn:Hl; [done|].
    apply lstrip_chars_head in Hl.
    rewrite Forall_forall in H. specialize (H c).
    rewrite H in Hl; [done|]. rewrite list_elem_of_In, <- in_rev. by left.
  - by intros ->.
Qed.

Lemma chars_join_lines_blank (lines : list string) :
  is_blank (Str.join_lines lines) <-> Forall is_blank lines.
Proof.
  unfold is_blank. induction lines as [|l [|l' r] IH].
  - cbn. split; constructor.
  - cbn. split; [by constructor | by intros [? _]%Forall_cons].
  - change (Str.join_lines (l :: l' :: r))
      with (l +:+ Str.nl +:+ Str.join_lines (l' :: r)).
    rewrite !chars_append, !Forall_app, IH, (Forall_cons _ l).
    split; [by intros (? & _ & ?) | intros [? ?]].
    repeat split; [done| |done]. by repeat constructor.
Qed.

(** X3. The text that [get_user_input] joins is taken as no input by
    [main], whose test is [not text.strip()], exactly when every line read
    consists of white space only. *)
Theorem blank_text_iff (lines : list string) :
  Str.strip (Str.join_lines lines) = EmptyString <-> Forall is_blank lines.
Proof. by rewrite strip_empty_iff, chars_join_lines_blank. Qed.

(** A line of one space and a line of a tab and a space. *)
Lemma blank_text_iff_witness :
  Str.strip (Str.join_lines [" "; String "009"%char " "]) = EmptyString.
Proof.
  apply (proj2 (blank_text_iff [" "; String "009"%char " "])).
  repeat constructor.
Defined.

(** ** More on slugify *)

Lemma separated_prefix (l1 l2 : list ascii) :
  l1 `prefix_of` l2 -> separated l2 -> separated l1.
Proof.
  intros [k ->]. induction l1 as [|a r IH]; [done|].
  cbn [app separated]. intros [Ha Hr]. split; [|by apply IH].
  intros Heq. specialize (Ha Heq). by destruct r.
Qed.

Lemma drop_final_hyphen_prefix (l : list ascii) :
  drop_final_hyphen l `prefix_of` l.
Proof.
  induction l as [|c [|c' r] IH].
  - done.
  - cbn. destruct (Ascii.eqb c Str.hyphen); [apply prefix_nil | done].
  - change (drop_final_hyphen (c :: c' :: r))
      with (c :: drop_final_hyphen (c' :: r)).
    by apply prefix_cons.
Qed.

Lemma sub_edge_hyphens_separated (l : list ascii) :
  separated l -> separated (sub_edge_hyphens l).
Proof.
  intros Hsep. destruct l as [|c r]; [done|]. unfold sub_edge_hyphens.
  destruct (Ascii.eqb c Str.hyphen).
  - eapply separated_prefix; [apply drop_final_hyphen_prefix|].
    by apply separated_tail in Hsep.
  - eapply separated_prefix; [apply drop_final_hyphen_prefix | done].
Qed.

Lemma trimmed_slug_separated (text : string) : separated (trimmed_slug text).
Proof. apply sub_edge_hyphens_separated, sub_separated. Qed.

Lemma sub_length (b : bool) (l : list ascii) :
  (length (sub_non_alnum_runs b l) <= length l)%nat.
Proof.
  revert b. induction l as [|c r IH]; intros b; cbn; [done|].
  destruct (Str.is_slug_char c); cbn; [specialize (IH false); lia|].
  destruct b; cbn; specialize (IH true); lia.
Qed.

Lemma trimmed_slug_length (text : string) :
  (length (trimmed_slug text) <= length (Str.chars (Str.lower text)))%nat.
Proof.
  unfold trimmed_slug.
  etrans; [apply sublist_length, sub_edge_hyphens_sublist|].
  apply sub_length.
Qed.

Lemma slugify_separated (text : string) :
  separated (Str.chars (slugify text)).
Proof.
  rewrite slugify_trimmed.
  eapply separated_prefix; [apply prefix_take | apply trimmed_slug_separated].
Qed.

(** X4. Every slug has at most 50 characters, all of them in [a-z0-9-],
    does not begin with a hyphen and has no two hyphens in a row. *)
Theorem slugify_well_formed (text : string) :
  (length (Str.chars (slugify text)) <= 50)%nat
  /\ Forall (fun c => Str.is_slug_char c = true \/ c = Str.hyphen)
            (Str.chars (slugify text))
  /\ head (Str.chars (slugify text)) <> Some Str.hyphen
  /\ separated (Str.chars (slugify text)).
Proof.
  destruct (slugify_shape text) as (Hlen & Hall & Hhead).
  repeat split; try done. apply slugify_separated.
Qed.

(** X5. When the lowered title, [text.lower()], has at most 50
    characters, the slug does not end with a hyphen: the cut to 50
    characters is the only way to a hyphen in last position. For a title of
    code points below 256 the lowered title is as long as the title. *)
Theorem slugify_short_title (text : string) :
  (length (Str.chars (Str.lower text)) <= 50)%nat ->
  last (Str.chars (slugify text)) <> Some Str.hyphen.
Proof.
  intros Hlen. apply slugify_last_uncut.
  etrans; [apply trimmed_slug_length | done].
Qed.

Lemma slugify_short_title_witness :
  last (Str.chars (slugify "Hello, World!!")) <> Some Str.hyphen.
Proof. apply slugify_short_title. vm_compute. lia. Defined.

Lemma chr_lower_slug (c : ascii) :
  Str.is_slug_char c = true \/ c = Str.hyphen -> Str.chr_lower c = c.
Proof.
  intros [Hc| ->]; [|reflexivity]. revert Hc.
  destruct c as [[] [] [] [] [] [] [] []]; vm_compute; congruence.
Qed.

Lemma sub_fixed (b : bool) (l : list ascii) :
  Forall (fun c => Str.is_slug_char c = true \/ c = Str.hyphen) l ->
  separated l -> (b = true -> head l <> Some Str.hyphen) ->
  sub_non_alnum_runs b l = l.
Proof.
  revert b. induction l as [|c r IH]; intros b Hall Hsep Hb; [done|].
  apply Forall_cons in Hall as [Hc Hall]. destruct Hsep as [Hnext Hsep].
  cbn [sub_non_alnum_runs].
  destruct (Str.is_slug_char c) eqn:Hslug.
  - f_equal. by apply IH.
  - destruct Hc as [Hc| ->]; [congruence|].
    destruct b; [by specialize (Hb eq_refl)|].
    f_equal. apply IH; [done..|]. intros _. by apply Hnext.
Qed.

Lemma drop_final_hyphen_fixed (l : list ascii) :
  last l <> Some Str.hyphen -> drop_final_hyphen l = l.
Proof.
  induction l as [|c [|c' r] IH]; [done| |].
  - cbn. intros Hc. destruct (Ascii.eqb_spec c Str.hyphen); congruence.
  - intros Hlast.
    change (drop_final_hyphen (c :: c' :: r))
      with (c :: drop_final_hyphen (c' :: r)).
    f_equal. by apply IH.
Qed.

Lemma sub_edge_hyphens_fixed (l : list ascii) :
  head l <> Some Str.hyphen -> last l <> Some Str.hyphen ->
  sub_edge_hyphens l = l.
Proof.
  intros Hhead Hlast. destruct l as [|c r]; [done|]. unfold sub_edge_hyphens.
  destruct (Ascii.eqb_spec c Str.hyphen) as [->|_]; [done|].
  by apply drop_final_hyphen_fixed.
Qed.

(** X6. A slug that does not end with a hyphen is its own slug: [slugify]
    changes nothing in it. *)
Theorem slugify_idempotent (text : string) :
  last (Str.chars (slugify text)) <> Some Str.hyphen ->
  slugify (slugify text) = slugify text.
Proof.
  intros Hlast.
  destruct (slugify_shape text) as (Hlen & Hall & Hhead).
  pose proof (slugify_separated text) as Hsep.
  unfold slugify at 1. unfold Str.lower. rewrite chars_of_chars.
  set (l := Str.chars (slugify text)) in *.
  assert (map Str.chr_lower l = l) as ->.
  { clear -Hall. induction Hall as [|c r Hc _ IH]; [done|].
    cbn. by rewrite IH, chr_lower_slug. }
  rewrite (sub_fixed false l) by done.
  rewrite sub_edge_hyphens_fixed by done.
  rewrite take_ge by done.
  apply String.string_of_list_ascii_of_string.
Qed.

Lemma slugify_idempotent_witness :
  slugify (slugify "Hello, World!!") = slugify "Hello, World!!".
Proof. apply slugify_idempotent. vm_compute. discriminate. Defined.

Lemma lower_slug_char (c : ascii) :
  Str.is_slug_char (Str.chr_lower c) = is_ascii_alnum c.
Proof. destruct c as [[] [] [] [] [] [] [] []]; vm_compute; reflexivity. Qed.

Lemma sub_no_slug (b : bool) (l : list ascii) :
  Forall (fun c => Str.is_slug_char c = false) l ->
  sub_non_alnum_runs b l = [] \/ sub_non_alnum_runs b l = [Str.hyphen].
Proof.
  revert b. induction l as [|c r IH]; intros b Hall; [by left|].
  apply Forall_cons in Hall as [Hc Hall]. cbn [sub_non_alnum_runs].
  rewrite Hc. destruct b; [by apply IH|].
  right. f_equal. destruct (IH true Hall) as [H|H]; [done|].
  pose proof (sub_in_run_head r) as Hhead. by rewrite H in Hhead.
Qed.

Lemma sub_some_slug (b : bool) (l : list ascii) :
  Exists (fun c => Str.is_slug_char c = true) l ->
  exists c r, Str.is_slug_char c = true
              /\ (sub_non_alnum_runs b l = c :: r
                  \/ sub_non_alnum_runs b l = Str.hyphen :: c :: r).
Proof.
  revert b. induction l as [|c0 l IH]; intros b Hex; [by apply Exists_nil in Hex|].
  cbn [sub_non_alnum_runs]. destruct (Str.is_slug_char c0) eqn:Hc0.
  - exists c0, (sub_non_alnum_runs false l). by split; [|left].
  - apply Exists_cons in Hex as [Hex|Hex]; [congruence|].
    destruct (IH true Hex) as (c & r & Hc & [Hsub|Hsub]).
    + exists c, r. split; [done|]. destruct b; [by left|]. right. by rewrite Hsub.
    + pose proof (sub_in_run_head l) as Hhead. by rewrite Hsub in Hhead.
Qed.

Lemma drop_final_hyphen_slug_head (c : ascii) (r : list ascii) :
  Str.is_slug_char c = true -> drop_final_hyphen (c :: r) <> [].
Proof.
  intros Hc Hnil. apply drop_final_hyphen_nil in Hnil as [Hnil|Hnil]; [done|].
  injection Hnil as -> _. by vm_compute in Hc.
Qed.

(** X7. The slug is empty exactly when the title has no ASCII letter and no
    digit. *)
Theorem slugify_empty_iff (text : string) :
  slugify text = EmptyString
  <-> Forall (fun c => is_ascii_alnum c = false) (Str.chars text).
Proof.
  assert (Forall (fun c => is_ascii_alnum c = false) (Str.chars text)
          <-> Forall (fun c => Str.is_slug_char c = false)
                     (Str.chars (Str.lower text))) as ->.
  { unfold Str.lower. rewrite chars_of_chars, Forall_map.
    apply Forall_iff. intros c. cbn. by rewrite lower_slug_char. }
  unfold slugify. set (l := Str.chars (Str.lower text)). split.
  - intros Hempty. apply Forall_forall. intros c Hin.
    destruct (Str.is_slug_char c) eqn:Hc; [|done]. exfalso.
    assert (Exists (fun c => Str.is_slug_char c = true) l) as Hex
      by (apply Exists_exists; eauto).
    destruct (sub_some_slug false l Hex) as (c1 & r & Hc1 & [Hsub|Hsub]);
      rewrite Hsub in Hempty; unfold sub_edge_hyphens in Hempty.
    + assert (Ascii.eqb c1 Str.hyphen = false) as Hne
        by (apply Ascii.eqb_neq; by apply slug_char_not_hyphen).
      rewrite Hne in Hempty.
      pose proof (drop_final_hyphen_slug_head c1 r Hc1) as Hnn.
      destruct (drop_final_hyphen (c1 :: r)); [done|]. discriminate Hempty.
    + rewrite Ascii.eqb_refl in Hempty.
      pose proof (drop_final_hyphen_slug_head c1 r Hc1) as Hnn.
      destruct (drop_final_hyphen (c1 :: r)); [done|]. discriminate Hempty.
  - intros Hall. by destruct (sub_no_slug false l Hall) as [-> | ->].
Qed.

Lemma slugify_empty_iff_witness : slugify "?! ..." = EmptyString.
Proof.
  apply (proj2 (slugify_empty_iff "?! ...")). repeat constructor.
Defined.

(** ** The yes/no prompts *)

Lemma chr_lower_n (c : ascii) :
  Str.chr_lower c = "n"%char -> c = "n"%char \/ c = "N"%char.
Proof.
  destruct c as [[] [] [] [] [] [] [] []]; vm_compute; intros H;
    first [discriminate H | by left | by right].
Qed.

Lemma lower_is_n (s : string) : Str.lower s = "n" <-> s = "n" \/ s = "N".
Proof.
  split; [|by intros [-> | ->]].
  unfold Str.lower. intros H.
  apply (f_equal Str.chars) in H. rewrite chars_of_chars in H.
  rewrite <- (String.string_of_list_ascii_of_string s).
  fold (Str.chars s). destruct (Str.chars s) as [|c [|c' r]]; try done.
  injection H as H. by apply chr_lower_n in H as [-> | ->]; [left | right].
Qed.

(** X8. A line typed at a yes/no prompt counts as a "no" exactly when,
    without the white space around it, it is [n] or [N]; every other line,
    the empty one included, counts as a yes. *)
Theorem answer_is_n_iff (line : string) :
  answer_is_n line = true <-> Str.strip line = "n" \/ Str.strip line = "N".
Proof. unfold answer_is_n. rewrite String.eqb_eq. apply lower_is_n. Qed.

Lemma answer_is_n_iff_witness : answer_is_n " N " = true.
Proof. apply (proj2 (answer_is_n_iff " N ")). right. reflexivity. Defined.

(** ** More on the edit loop *)

Section MoreEditLoop.

Context {codec : JsonCodec} (E : Env).

Ltac start_iteration :=
  unfold open_in_editor; cbn [open_in_editor_at];
  unfold bind, try_finally, try_except, lift, named_temporary_file,
    run_editor, read_file, unlink;
  world_simpl; rewrite lookup_insert_eq; cbv beta iota zeta.

(** X9. A failed editor ends the loop at once, without a prompt: an editor
    that cannot be started gives the exception of [subprocess.run] for the
    cause ([FileNotFoundError], [PermissionError] or [OSError]), one that
    exits with a status other than 0 gives [CalledProcessError] with that
    status, both after the unlink of the temporary file; when the editor
    has removed the file, the exception is the [FileNotFoundError] of the
    unlink itself. *)
Theorem editor_failure_propagates (data : json) (w : World) :
  let p := new_temp w in
  let w1 := log [EvCreate p (draft_of data); EvLaunch (editor_command E) p]
                (set_launches (S (launches w)) w) in
  (forall why,
     editor E (editor_command E) (launches w) (draft_of data)
     = NotStarted why ->
     open_in_editor E data w = (Raise (start_error why), log [EvUnlink p] w1))
  /\ (forall status content,
        editor E (editor_command E) (launches w) (draft_of data)
        = Exited status (Some content) ->
        status <> 0 ->
        open_in_editor E data w
        = (Raise (CalledProcessError status), log [EvUnlink p] w1))
  /\ (forall status,
        editor E (editor_command E) (launches w) (draft_of data)
        = Exited status None ->
        open_in_editor E data w = (Raise FileNotFoundError, w1)).
Proof.
  intros p w1. pose proof (temp_bound_fresh (fs w)) as Hfresh.
  unfold editor_command, draft_of. split; [|split].
  - intros why Hed. start_iteration. rewrite Hed. world_simpl.
    rewrite lookup_insert_eq. subst w1 p.
    unfold log, set_fs, set_launches, new_temp; cbn.
    rewrite delete_insert_eq, delete_id by done.
    by rewrite <- !app_assoc.
  - intros status content Hed Hst. start_iteration. rewrite Hed.
    apply Z.eqb_neq in Hst as ->. world_simpl. rewrite lookup_insert_eq.
    subst w1 p. unfold log, set_fs, set_launches, new_temp; cbn.
    rewrite !delete_insert_eq, delete_id by done.
    by rewrite <- !app_assoc.
  - intros status Hed. start_iteration. rewrite Hed.
    destruct (status =? 0); world_simpl; rewrite ?lookup_delete_eq;
      subst w1 p; unfold log, set_fs, set_launches, new_temp; cbn;
      rewrite ?delete_insert_eq, ?delete_id by done;
      rewrite ?Hfresh; by rewrite <- ?app_assoc.
Qed.




End MoreEditLoop.

(** Editors that cannot be started, for each cause, an editor that exits
    with status 1 and one that removes the file. *)
Lemma editor_failure_propagates_witness :
  fst (open_in_editor (codec := mini_codec)
         (sample_env absent_editor sample_reply) sample_bit (sample_world []))
  = Raise FileNotFoundError
  /\ fst (open_in_editor (codec := mini_codec)
            (sample_env forbidden_editor sample_reply) sample_bit
            (sample_world []))
     = Raise PermissionError
  /\ fst (open_in_editor (codec := mini_codec)
            (sample_env misformed_editor sample_reply) sample_bit
            (sample_world []))
     = Raise OSError
  /\ fst (open_in_editor (codec := mini_codec)
            (sample_env failing_editor sample_reply) sample_bit
            (sample_world []))
     = Raise (CalledProcessError 1)
  /\ fst (open_in_editor (codec := mini_codec)
            (sample_env removing_editor sample_reply) sample_bit
            (sample_world []))
     = Raise FileNotFoundError.
Proof.
  split; [|split; [|split; [|split]]].
  - by rewrite (proj1 (editor_failure_propagates (codec := mini_codec)
                         (sample_env absent_editor sample_reply) sample_bit
                         (sample_world [])) NotFound eq_refl).
  - by rewrite (proj1 (editor_failure_propagates (codec := mini_codec)
                         (sample_env forbidden_editor sample_reply)
                         sample_bit (sample_world [])) NotPermitted eq_refl).
  - by rewrite (proj1 (editor_failure_propagates (codec := mini_codec)
                         (sample_env misformed_editor sample_reply)
                         sample_bit (sample_world [])) NotExecutable eq_refl).
  - rewrite (proj1 (proj2 (editor_failure_propagates (codec := mini_codec)
                             (sample_env failing_editor sample_reply)
                             sample_bit (sample_world [])))
               1 (draft_of (codec := mini_codec) sample_bit) eq_refl);
      [reflexivity | discriminate].
  - by rewrite (proj2 (proj2 (editor_failure_propagates (codec := mini_codec)
                                (sample_env removing_editor sample_reply)
                                sample_bit (sample_world [])))
                  0 eq_refl).
Defined.



(** ** More on the store appender *)

Lemma keys_set (k : string) (v : json) (d : list (string * json)) :
  dict_keys (Dict.set k v d)
  = if Dict.contains k d then dict_keys d else dict_keys d ++ [k].
Proof.
  unfold dict_keys, Dict.contains. induction d as [|[k' v'] r IH]; cbn; [done|].
  destruct (String.eqb_spec k' k) as [->|Hne]; [done|].
  cbn. rewrite IH. by destruct (Dict.get k r).
Qed.

Lemma keys_del (k : string) (d : list (string * json)) :
  dict_keys (Dict.del k d) = List.filter (fun k' => negb (String.eqb k' k)) (dict_keys d).
Proof.
  unfold dict_keys, Dict.del. induction d as [|[k' v'] r IH]; cbn; [done|].
  destruct (String.eqb k' k); cbn; by rewrite IH.
Qed.

Lemma persisted_record_keeps_fields (E : Env) (title : string)
    (d : list (string * json)) (k : string) :
  (k ∉ touched_keys ->
   Dict.get k (persisted_record E title d) = Dict.get k d)
  /\ (k ∈ stripped_keys ->
      forall v, Dict.get k d = Some v -> truthy v = true ->
                Dict.get k (persisted_record E title d) = Some v)
  /\ (k ∈ stripped_keys -> Dict.get k d = None ->
      Dict.get k (persisted_record E title d) = None).
Proof.
  unfold persisted_record. split; [|split].
  - unfold touched_keys. rewrite !not_elem_of_cons.
    intros (Hid & Hdate & Hk). rewrite strip_empty_other by done.
    by rewrite !get_set_ne.
  - intros Hk v Hget Hv.
    rewrite <- (get_after_derived k (JStr (derived_id E title))
                  (JStr (strftime_ymd (today E))) d Hk) in Hget.
    revert Hget. generalize (Dict.set "date" (JStr (strftime_ymd (today E)))
                               (Dict.set "id" (JStr (derived_id E title)) d)).
    intros d' Hget. unfold strip_empty.
    assert (forall key d0, Dict.get k d0 = Some v ->
                           Dict.get k (strip_key key d0) = Some v) as Hstep.
    { intros key d0 H0. destruct (String.eqb_spec key k) as [->|Hne].
      - unfold strip_key. by rewrite H0, Hv.
      - by rewrite strip_key_get_ne. }
    by do 4 apply Hstep.
  - intros Hk Hget.
    rewrite <- (get_after_derived k (JStr (derived_id E title))
                  (JStr (strftime_ymd (today E))) d Hk) in Hget.
    unfold strip_empty. by do 4 apply strip_key_absent.
Qed.

Lemma app_hyphen_inj (l1 l2 d1 d2 : list ascii) :
  Str.hyphen ∉ d1 -> Str.hyphen ∉ d2 ->
  l1 ++ Str.hyphen :: d1 = l2 ++ Str.hyphen :: d2 -> l1 = l2 /\ d1 = d2.
Proof.
  intros H1 H2. revert l2. induction l1 as [|a l1 IH]; intros [|b l2] Heq.
  - by injection Heq as ->.
  - injection Heq as <- ->. exfalso. apply H1.
    apply elem_of_app. right. by apply elem_of_cons; left.
  - injection Heq as -> <-. exfalso. apply H2.
    apply elem_of_app. right. by apply elem_of_cons; left.
  - injection Heq as -> Heq. by destruct (IH l2 Heq) as [-> ->].
Qed.

Lemma of_Z_inj (n n' : Z) : Str.of_Z n = Str.of_Z n' -> n = n'.
Proof.
  unfold Str.of_Z. intros Heq. apply DecimalZ.to_int_inj.
  assert (forall z, Z.to_int z <> Decimal.Pos Decimal.Nil
                    /\ Z.to_int z <> Decimal.Neg Decimal.Nil) as Hnn.
  { intros [|p|p]; cbn; split; try discriminate;
      intros [= H]; by apply DecimalPos.Unsigned.to_uint_nonnil in H. }
  apply (f_equal NilZero.int_of_string) in Heq.
  rewrite !NilZero.isi in Heq by apply Hnn. by injection Heq.
Qed.

Lemma digits_no_hyphen (l : list ascii) :
  forallb Str.is_digit l = true -> Str.hyphen ∉ l.
Proof.
  rewrite forallb_forall. intros Hall Hin%list_elem_of_In.
  by specialize (Hall _ Hin).
Qed.

Lemma derived_id_inj (E1 E2 : Env) (t1 t2 : string) :
  0 <= now_ms E1 -> 0 <= now_ms E2 ->
  derived_id E1 t1 = derived_id E2 t2 ->
  slugify t1 = slugify t2 /\ now_ms E1 = now_ms E2.
Proof.
  intros H1 H2 Heq. unfold derived_id in Heq.
  apply (f_equal Str.chars) in Heq. rewrite !chars_append in Heq.
  change (Str.chars "-") with [Str.hyphen] in Heq. cbn [app] in Heq.
  destruct (of_Z_digits _ H1) as [_ Hd1].
  destruct (of_Z_digits _ H2) as [_ Hd2].
  apply app_hyphen_inj in Heq as [Hs Hd]; [|by apply digits_no_hyphen..].
  split.
  - rewrite <- (String.string_of_list_ascii_of_string (slugify t1)).
    rewrite <- (String.string_of_list_ascii_of_string (slugify t2)).
    fold (Str.chars (slugify t1)). fold (Str.chars (slugify t2)).
    by rewrite Hs.
  - apply of_Z_inj.
    rewrite <- (String.string_of_list_ascii_of_string (Str.of_Z (now_ms E1))).
    rewrite <- (String.string_of_list_ascii_of_string (Str.of_Z (now_ms E2))).
    fold (Str.chars (Str.of_Z (now_ms E1))).
    fold (Str.chars (Str.of_Z (now_ms E2))). by rewrite Hd.
Qed.

Lemma keys_strip_key (key : string) (d : list (string * json)) :
  dict_keys (strip_key key d)
  = List.filter (fun k => negb (String.eqb k key
                                && match Dict.get key d with
                                   | Some v => negb (truthy v)
                                   | None => false
                                   end)) (dict_keys d).
Proof.
  unfold strip_key. destruct (Dict.get key d) as [v|] eqn:Hget.
  - destruct (truthy v); cbn [negb].
    + rewrite (List.filter_ext _ (fun _ => true)); [|intros k; by rewrite andb_false_r].
      symmetry. apply forallb_filter_id. by apply forallb_forall.
    + rewrite keys_del. apply List.filter_ext. intros k. by rewrite andb_true_r.
  - rewrite (List.filter_ext _ (fun _ => true)); [|intros k; by rewrite andb_false_r].
    symmetry. apply forallb_filter_id. by apply forallb_forall.
Qed.

Lemma list_filter_filter {A} (f g : A -> bool) (l : list A) :
  List.filter f (List.filter g l) = List.filter (fun x => g x && f x) l.
Proof.
  induction l as [|x l IH]; cbn; [done|].
  destruct (g x); cbn; [destruct (f x)|]; by rewrite IH.
Qed.

Lemma keys_strip_empty (d : list (string * json)) :
  dict_keys (strip_empty d) = List.filter (fun k => negb (dropped d k)) (dict_keys d).
Proof.
  unfold strip_empty. rewrite !keys_strip_key, !list_filter_filter.
  rewrite !strip_key_get_ne by done.
  apply List.filter_ext. intros k. unfold dropped, stripped_keys.
  cbn [existsb].
  destruct (String.eqb_spec k "url") as [->|_];
    [cbn; by rewrite ?andb_true_r|].
  destruct (String.eqb_spec k "content") as [->|_];
    [cbn; by rewrite ?andb_true_r|].
  destruct (String.eqb_spec k "via") as [->|_]; [cbn; by rewrite ?andb_true_r|].
  destruct (String.eqb_spec k "tags") as [->|_]; [cbn; by rewrite ?andb_true_r|].
  done.
Qed.

Lemma persisted_record_key_order (E : Env) (title : string)
    (d : list (string * json)) :
  Dict.get "id" d = None -> Dict.get "date" d = None ->
  dict_keys (persisted_record E title d)
  = List.filter (fun k => negb (dropped d k)) (dict_keys d) ++ ["id"; "date"].
Proof.
  intros Hid Hdate. unfold persisted_record.
  rewrite keys_strip_empty, !keys_set. unfold Dict.contains.
  rewrite get_set_ne, Hid, Hdate by done.
  rewrite <- app_assoc, List.filter_app. cbn [app]. f_equal.
  apply List.filter_ext_in. intros k Hk. f_equal. unfold dropped.
    destruct (existsb (String.eqb k) stripped_keys) eqn:Hex; [|done].
    cbn [andb]. rewrite get_after_derived; [done|].
    apply existsb_exists in Hex as (k' & Hin & ->%String.eqb_eq).
  by apply list_elem_of_In.
Qed.

Lemma persisted_record_id (E : Env) (title : string)
    (d : list (string * json)) :
  Dict.get "id" (persisted_record E title d) = Some (JStr (derived_id E title)).
Proof.
  unfold persisted_record.
  rewrite strip_empty_other
    by (unfold stripped_keys; rewrite !not_elem_of_cons; repeat split;
        (discriminate || apply not_elem_of_nil)).
  rewrite get_set_ne by discriminate. apply get_set_eq.
Qed.

Section MoreStore.

Context {codec : JsonCodec} (E : Env).

(** The whole effect of a successful [add_bit]. *)
Lemma add_bit_effect (d : list (string * json)) (title text : string)
    (olds : list json) (w : World) :
  fs w !! BitsJson = Some text ->
  json_loads text = Ret (JList olds) ->
  Dict.get "title" d = Some (JStr title) ->
  let content := store_text (JDict (persisted_record E title d) :: olds) in
  add_bit E (JDict d) w
  = (rebuild_result E,
     log (EvWrite BitsJson content :: closing_events E title)
         (set_fs (<[BitsJson := content]> (fs w)) w)).
Proof.
  intros Hfs Hloads Htitle content.
  pose proof (persisted_record_title E title _ d Htitle) as Htitle'.
  unfold add_bit, bind, read_file, lift, ret. rewrite Hfs, Hloads.
  cbn [getitem]. rewrite Htitle. cbn [slugify_value setitem].
  fold (derived_id E title).
  unfold strip_each. rewrite !strip_if_falsy_dict.
  fold (strip_empty (Dict.set "date" (JStr (strftime_ymd (today E)))
                       (Dict.set "id" (JStr (derived_id E title)) d))).
  fold (persisted_record E title d).
  cbn [insert_front getitem]. rewrite Htitle'.
  unfold write_file, print, emit, run_rebuild, rebuild_result, closing_events.
  fold (store_text (JDict (persisted_record E title d) :: olds)).
  fold content.
  destruct (rebuild_status E =? 0); cbn; unfold log, set_fs; cbn;
    by rewrite <- !app_assoc.
Qed.

Lemma add_bit_no_store (bit : json) (w : World) :
  fs w !! BitsJson = None ->
  add_bit E bit w = (Raise FileNotFoundError, w).
Proof. unfold add_bit, bind, read_file, raise. by intros ->. Qed.


Lemma add_bit_title_not_str (d : list (string * json)) (w : World)
    (text : string) (bits v : json) :
  fs w !! BitsJson = Some text -> json_loads text = Ret bits ->
  Dict.get "title" d = Some v -> is_str v = false ->
  add_bit E (JDict d) w = (Raise AttributeError, w).
Proof.
  unfold add_bit, bind, read_file, lift, ret, raise.
  intros -> -> Hget Hv. cbn [getitem]. rewrite Hget. by destruct v.
Qed.

Lemma add_bit_store_not_list (d : list (string * json)) (w : World)
    (text title : string) (bits : json) :
  fs w !! BitsJson = Some text -> json_loads text = Ret bits ->
  Dict.get "title" d = Some (JStr title) -> is_list bits = false ->
  add_bit E (JDict d) w = (Raise AttributeError, w).
Proof.
  unfold add_bit, bind, read_file, lift, ret, raise.
  intros -> -> Hget Hbits. cbn [getitem]. rewrite Hget.
  cbn [slugify_value setitem]. unfold strip_each.
  rewrite !strip_if_falsy_dict. by destruct bits.
Qed.


(** X13. [add_bit] gets to its write only for a mapping with a string
    title and a store that holds a list: on every other value and world it
    raises before the write and leaves the world as it was. *)
Theorem add_bit_raises_unless_valid (bit : json) (w : World) :
  (exists e, add_bit E bit w = (Raise e, w))
  \/ (exists d title text olds,
        bit = JDict d /\ Dict.get "title" d = Some (JStr title)
        /\ fs w !! BitsJson = Some text
        /\ json_loads text = Ret (JList olds)).
Proof.
  destruct (fs w !! BitsJson) as [text|] eqn:Hfs.
  2:{ left. eexists. by apply add_bit_no_store. }
  destruct (json_loads text) as [bits|e] eqn:Hloads.
  2:{ left. exists e. unfold add_bit, bind, read_file, lift.
      by rewrite Hfs, Hloads. }
  destruct (getitem bit "title") as [v|e] eqn:Hget.
  2:{ left. destruct (add_bit_rejects E bit e w Hget) as (e' & He' & _). eauto. }
  destruct bit as [| | | | |l|d]; try discriminate Hget.
  cbn in Hget. destruct (Dict.get "title" d) as [v'|] eqn:Hd; [|done].
  injection Hget as ->.
  destruct (is_str v) eqn:Hv.
  2:{ left. eexists. by apply add_bit_title_not_str with text bits v. }
  destruct v as [| | | |title| |]; try discriminate Hv.
  destruct (is_list bits) eqn:Hbits.
  2:{ left. eexists. by apply add_bit_store_not_list with text title bits. }
  destruct bits as [| | | | |olds|]; try discriminate Hbits.
  right. by exists d, title, text, olds.
Qed.

(** X14. When the rebuild script exits with a status other than 0,
    [add_bit] raises [CalledProcessError] with that status after the store
    has been written: the record stays in the store, and "Done!" is not
    printed. *)
Theorem rebuild_failure_after_write (d : list (string * json))
    (title text : string) (olds : list json) (w : World) :
  fs w !! BitsJson = Some text ->
  json_loads text = Ret (JList olds) ->
  Dict.get "title" d = Some (JStr title) ->
  rebuild_status E <> 0 ->
  let content := store_text (JDict (persisted_record E title d) :: olds) in
  add_bit E (JDict d) w
  = (Raise (CalledProcessError (rebuild_status E)),
     log [EvWrite BitsJson content; EvPrint ("Added bit: " +:+ title);
          EvPrint "Rebuilding site..."; EvRebuild]
         (set_fs (<[BitsJson := content]> (fs w)) w)).
Proof.
  intros Hfs Hloads Htitle Hst content.
  rewrite (add_bit_effect d title text olds w Hfs Hloads Htitle).
  unfold rebuild_result, closing_events. fold content.
  by apply Z.eqb_neq in Hst as ->.
Qed.

(** X15. [add_bit] keeps every field it does not own: in the record it
    persists, a key other than [id], [date] and the four optional ones has
    the value it had, an optional key with a true value keeps it, and an
    absent optional key stays absent. *)
Theorem add_bit_keeps_other_fields (d : list (string * json))
    (title text : string) (olds : list json) (w : World) (k : string) :
  fs w !! BitsJson = Some text ->
  json_loads text = Ret (JList olds) ->
  Dict.get "title" d = Some (JStr title) ->
  let record := persisted_record E title d in
  fs (snd (add_bit E (JDict d) w)) !! BitsJson
  = Some (store_text (JDict record :: olds))
  /\ (k ∉ touched_keys -> Dict.get k record = Dict.get k d)
  /\ (k ∈ stripped_keys ->
      forall v, Dict.get k d = Some v -> truthy v = true ->
                Dict.get k record = Some v)
  /\ (k ∈ stripped_keys -> Dict.get k d = None -> Dict.get k record = None).
Proof.
  intros Hfs Hloads Htitle record.
  split; [by apply (add_bit_store E) with text|].
  apply persisted_record_keeps_fields.
Qed.

(** X16. The record that [add_bit] persists for a mapping without [id] and
    [date] has the keys of the mapping in their order, without the optional
    ones whose value is false, and then [id] and [date]. *)
Theorem add_bit_key_order (d : list (string * json))
    (title text : string) (olds : list json) (w : World) :
  fs w !! BitsJson = Some text ->
  json_loads text = Ret (JList olds) ->
  Dict.get "title" d = Some (JStr title) ->
  Dict.get "id" d = None -> Dict.get "date" d = None ->
  let record := persisted_record E title d in
  fs (snd (add_bit E (JDict d) w)) !! BitsJson
  = Some (store_text (JDict record :: olds))
  /\ dict_keys record
     = List.filter (fun k => negb (dropped d k)) (dict_keys d)
       ++ ["id"; "date"].
Proof.
  intros Hfs Hloads Htitle Hid Hdate record.
  split; [by apply (add_bit_store E) with text|].
  by apply persisted_record_key_order.
Qed.

(** X17. After two appends, the two new records of the store have the same
    [id] only if their titles have the same slug and the clock gave the
    same millisecond to both: for clocks not before the epoch, the id
    determines the slug and the clock. *)
Theorem equal_ids_need_equal_slug_and_clock (E' : Env)
    (d1 d2 : list (string * json)) (t1 t2 text : string) (olds : list json)
    (w : World) :
  fs w !! BitsJson = Some text ->
  json_loads text = Ret (JList olds) ->
  Dict.get "title" d1 = Some (JStr t1) ->
  Dict.get "title" d2 = Some (JStr t2) ->
  0 <= now_ms E -> 0 <= now_ms E' ->
  let b1 := persisted_record E t1 d1 in
  let b2 := persisted_record E' t2 d2 in
  let w1 := snd (add_bit E (JDict d1) w) in
  let w2 := snd (add_bit E' (JDict d2) w1) in
  json_loads (store_text (JDict b1 :: olds)) = Ret (JList (JDict b1 :: olds)) ->
  fs w2 !! BitsJson = Some (store_text (JDict b2 :: JDict b1 :: olds))
  /\ (Dict.get "id" b1 = Dict.get "id" b2 ->
      slugify t1 = slugify t2 /\ now_ms E = now_ms E').
Proof.
  intros Hfs Hloads Ht1 Ht2 Hms Hms' b1 b2 w1 w2 Hback. split.
  - apply (add_bit_store E' d2 t2 (store_text (JDict b1 :: olds))
             (JDict b1 :: olds) w1); [|done..].
    by apply (add_bit_store E) with text.
  - unfold b1, b2. rewrite !persisted_record_id. intros [= Hid].
    by apply derived_id_inj.
Qed.

End MoreStore.


(** [add_bit] on [sparse_bit] when the rebuild exits with status 2. *)
Lemma rebuild_failure_after_write_witness :
  fst (add_bit (codec := mini_codec) failing_rebuild_env (JDict sparse_bit)
         (sample_world []))
  = Raise (CalledProcessError 2)
  /\ fs (snd (add_bit (codec := mini_codec) failing_rebuild_env
                (JDict sparse_bit) (sample_world []))) !! BitsJson
     = Some (store_text (codec := mini_codec) [sparse_record]).
Proof.
  assert (rebuild_status failing_rebuild_env <> 0) as Hst by discriminate.
  rewrite (rebuild_failure_after_write (codec := mini_codec)
             failing_rebuild_env sparse_bit "Example" "[]" []
             (sample_world []) eq_refl eq_refl eq_refl Hst).
  split; vm_compute; reflexivity.
Defined.

(** The fields of [noted_bit]: a field of its own, empty, stays; a source
    stays; the absent [content] stays absent. *)
Lemma add_bit_keeps_other_fields_witness :
  Dict.get "note"
    (persisted_record (sample_env keep_editor sample_reply) "Example"
       noted_bit) = Some (JStr EmptyString)
  /\ Dict.get "via"
       (persisted_record (sample_env keep_editor sample_reply) "Example"
          noted_bit) = Some (JStr "Hacker News")
  /\ Dict.get "content"
       (persisted_record (sample_env keep_editor sample_reply) "Example"
          noted_bit) = None.
Proof.
  split; [|split].
  - apply (proj1 (proj2 (add_bit_keeps_other_fields (codec := mini_codec)
                           (sample_env keep_editor sample_reply) noted_bit
                           "Example" "[]" [] (sample_world []) "note"
                           eq_refl eq_refl eq_refl))).
    unfold touched_keys, stripped_keys. rewrite !not_elem_of_cons.
    repeat split; (discriminate || apply not_elem_of_nil).
  - apply (proj1 (proj2 (proj2 (add_bit_keeps_other_fields
                                  (codec := mini_codec)
                                  (sample_env keep_editor sample_reply)
                                  noted_bit "Example" "[]" []
                                  (sample_world []) "via"
                                  eq_refl eq_refl eq_refl)))).
    + unfold stripped_keys. rewrite !elem_of_cons. tauto.
    + reflexivity.
    + reflexivity.
  - apply (proj2 (proj2 (proj2 (add_bit_keeps_other_fields
                                  (codec := mini_codec)
                                  (sample_env keep_editor sample_reply)
                                  noted_bit "Example" "[]" []
                                  (sample_world []) "content"
                                  eq_refl eq_refl eq_refl)))).
    + unfold stripped_keys. rewrite !elem_of_cons. tauto.
    + reflexivity.
Defined.

(** The keys of the record of [noted_bit]. *)
Lemma add_bit_key_order_witness :
  dict_keys (persisted_record (sample_env keep_editor sample_reply) "Example"
               noted_bit)
  = ["title"; "note"; "via"; "id"; "date"].
Proof.
  exact (proj2 (add_bit_key_order (codec := mini_codec)
                  (sample_env keep_editor sample_reply) noted_bit "Example"
                  "[]" [] (sample_world [])
                  eq_refl eq_refl eq_refl eq_refl eq_refl)).
Defined.

(** Two appends at the same millisecond with titles of different slugs:
    the ids differ. *)
Lemma equal_ids_need_equal_slug_and_clock_witness :
  Dict.get "id" (persisted_record (sample_env keep_editor sample_reply)
                   "Example" sparse_bit)
  <> Dict.get "id" (persisted_record keyless_env "Second one" second_bit).
Proof.
  intros Hid.
  assert (0 <= now_ms (sample_env keep_editor sample_reply)) as Hms
    by (vm_compute; discriminate).
  assert (0 <= now_ms keyless_env) as Hms' by (vm_compute; discriminate).
  destruct (proj2 (equal_ids_need_equal_slug_and_clock (codec := mini_codec)
                     (sample_env keep_editor sample_reply) keyless_env
                     sparse_bit second_bit "Example" "Second one" "[]" []
                     (sample_world [])
                     eq_refl eq_refl eq_refl eq_refl Hms Hms' eq_refl) Hid)
    as [Hslug _].
  vm_compute in Hslug. discriminate Hslug.
Defined.

(** ** More on the structuring client and the whole program *)

Lemma first_tool_use_app (texts rest : list block) (name : string)
    (input : json) :
  forallb is_text texts = true ->
  first_tool_use (texts ++ ToolUseBlock name input :: rest) = Some input.
Proof.
  induction texts as [|[t|n i] texts IH]; cbn; [done| |done].
  intros H. by apply IH.
Qed.

Section MoreMain.

Context {codec : JsonCodec} (E : Env).

(** X18. In a reply whose blocks before the first [tool_use] block are all
    text, [structure_with_claude] returns the input of that block, whatever
    blocks follow it, after one request to the API. *)
Theorem structure_takes_first_tool_use (text name : string)
    (texts rest : list block) (input : json) (w : World) :
  api E (bit_request text)
  = ApiMessage (texts ++ ToolUseBlock name input :: rest) ->
  forallb is_text texts = true ->
  structure_with_claude E text w
  = (Ret input, log [EvRequest (bit_request text)] w).
Proof.
  intros Hapi Htexts. unfold structure_with_claude, bind, emit.
  by rewrite Hapi, first_tool_use_app.
Qed.

(** X19. Without the API key, or with an empty one, [main] prints the
    error and exits with status 1: nothing is read from stdin, nothing is
    sent, no file is touched. *)
Theorem main_without_key (w : World) :
  environ E !! "ANTHROPIC_API_KEY" = None
  \/ environ E !! "ANTHROPIC_API_KEY" = Some EmptyString ->
  main E w
  = (Raise (SystemExit (ExitCode 1)),
     log [EvPrint "Error: ANTHROPIC_API_KEY environment variable not set"] w).
Proof.
  intros Hkey. unfold main, bind, when, environ_get.
  by destruct Hkey as [-> | ->].
Qed.

(** X20. When every line typed is white space only, or none is typed,
    [main] prints that there is no input and ends by [sys.exit(0)] after the
    input phase: the API is not called and no file is touched. *)
Theorem main_on_blank_input (w : World) :
  String.eqb (environ_get E "ANTHROPIC_API_KEY" EmptyString) EmptyString
  = false ->
  Forall is_blank (lines_read w) ->
  main E w
  = (Raise (SystemExit (ExitCode 0)),
     log (input_events w ++ [EvPrint "No input provided, exiting."])
         (set_stdin (lines_left w) w)).
Proof.
  unfold lines_read, input_events, lines_left. intros Hkey Hblank.
  apply chars_join_lines_blank, strip_empty_iff in Hblank.
  unfold main, bind, when, get_user_input. rewrite Hkey. cbn [ret].
  destruct (collect_lines (stdin w) []) as [[lines rest] evs0].
  cbn [fst snd] in *. rewrite Hblank. cbn.
  unfold log, set_stdin. cbn. by rewrite <- app_assoc.
Qed.



End MoreMain.

(** The reply of the sample environment: a text block, then the payload. *)
Lemma structure_takes_first_tool_use_witness :
  structure_with_claude (sample_env keep_editor sample_reply) "a new bit"
    (sample_world [])
  = (Ret sample_bit, log [EvRequest (bit_request "a new bit")] (sample_world [])).
Proof.
  exact (structure_takes_first_tool_use (sample_env keep_editor sample_reply)
           "a new bit" "create_bit" [TextBlock "Here is the bit."] []
           sample_bit (sample_world []) eq_refl eq_refl).
Defined.

(** An environment without the key and one with an empty key. *)
Lemma main_without_key_witness :
  main (codec := mini_codec) keyless_env (sample_world ["a new bit"])
  = (Raise (SystemExit (ExitCode 1)),
     log [EvPrint "Error: ANTHROPIC_API_KEY environment variable not set"]
         (sample_world ["a new bit"]))
  /\ main (codec := mini_codec) empty_key_env (sample_world ["a new bit"])
     = (Raise (SystemExit (ExitCode 1)),
        log [EvPrint "Error: ANTHROPIC_API_KEY environment variable not set"]
            (sample_world ["a new bit"])).
Proof.
  split.
  - apply (main_without_key (codec := mini_codec) keyless_env
             (sample_world ["a new bit"])).
    left. vm_compute. reflexivity.
  - apply (main_without_key (codec := mini_codec) empty_key_env
             (sample_world ["a new bit"])).
    right. vm_compute. reflexivity.
Defined.

(** A line of one space, then the empty line. *)
Lemma main_on_blank_input_witness :
  main (codec := mini_codec) (sample_env keep_editor sample_reply)
    (sample_world [" "; EmptyString; "y"])
  = (Raise (SystemExit (ExitCode 0)),
     log [EvPrint "Enter your bit (empty line to finish):";
          EvInput input_prompt (Some " ");
          EvInput input_prompt (Some EmptyString);
          EvPrint "No input provided, exiting."]
         (set_stdin ["y"] (sample_world [" "; EmptyString; "y"]))).
Proof.
  apply (main_on_blank_input (codec := mini_codec)
           (sample_env keep_editor sample_reply)
           (sample_world [" "; EmptyString; "y"])).
  - vm_compute. reflexivity.
  - repeat constructor.
Defined.


(** ** The exit status of every run *)

Section ExitStatus.

Context {codec : JsonCodec} (E : Env).




End ExitStatus.


(** ** The sessions of the edit loop and the structuring failure *)


Section Sessions.

Context {codec : JsonCodec} (E : Env).



(** X24. When the API call fails or the reply has no [tool_use] block,
    [main] prints the message of the exception after "Error calling
    Claude: " and ends by [sys.exit(1)]; it has sent one request, and it
    launches no editor, asks nothing more and touches no file. *)
Theorem main_on_structuring_failure (w : World) :
  String.eqb (environ_get E "ANTHROPIC_API_KEY" EmptyString) EmptyString
  = false ->
  String.eqb (Str.strip (user_text w)) EmptyString = false ->
  structured (api E (bit_request (user_text w))) = None ->
  main E w
  = (Raise (SystemExit (ExitCode 1)),
     log (input_events w
          ++ [EvPrint (Str.nl +:+ "Calling Claude to structure your bit...");
              EvRequest (bit_request (user_text w));
              EvPrint ("Error calling Claude: "
                       +:+ structuring_error
                             (api E (bit_request (user_text w))))])
         (set_stdin (lines_left w) w)).
Proof.
  unfold user_text, structured, input_events, lines_left, structuring_error.
  intros Hkey Htext Hapi.
  unfold main, bind, when, get_user_input. rewrite Hkey. cbn [ret].
  destruct (collect_lines (stdin w) []) as [[lines rest] evs0].
  cbn [fst snd] in *. rewrite Htext.
  unfold try_except, structure_with_claude, bind, print, emit.
  destruct (api E (bit_request (Str.join_lines lines))) as [msg|content].
  - cbn. unfold log, set_stdin. cbn. by rewrite <- !app_assoc.
  - rewrite Hapi. cbn. unfold log, set_stdin. cbn. by rewrite <- !app_assoc.
Qed.

End Sessions.


(** A failed API call and a reply in prose. *)
Lemma main_on_structuring_failure_witness :
  emitted (sample_world ["a new bit"; EmptyString]) (snd failed_api_run)
  = [EvPrint "Enter your bit (empty line to finish):";
     EvInput input_prompt (Some "a new bit");
     EvInput input_prompt (Some EmptyString);
     EvPrint (Str.nl +:+ "Calling Claude to structure your bit...");
     EvRequest (bit_request "a new bit");
     EvPrint "Error calling Claude: Overloaded"]
  /\ fst (main (codec := mini_codec) (sample_env keep_editor prose_reply)
            (sample_world ["a new bit"; EmptyString]))
     = Raise (SystemExit (ExitCode 1)).
Proof.
  split.
  - unfold failed_api_run.
    rewrite (main_on_structuring_failure (codec := mini_codec)
               (sample_env keep_editor (ApiFailure "Overloaded"))
               (sample_world ["a new bit"; EmptyString]));
      vm_compute; reflexivity.
  - rewrite (main_on_structuring_failure (codec := mini_codec)
               (sample_env keep_editor prose_reply)
               (sample_world ["a new bit"; EmptyString]));
      vm_compute; reflexivity.
Defined.
